(** * Verification of the GPU ops policy engine

    Shallow embedding of [python/starlark_engine/engine.py]: the policy
    data model, the pool/schedule registry ([GPUOpsModule]) and the
    evaluation and ranking methods of [PolicyEngine], followed by the
    properties of the specification proved (or refuted) on it.

    Conventions of the embedding:
    - a Python [float] is an IEEE-754 binary64 value ([spec_float] with
      precision 53 and maximal exponent 1024), with the comparisons and
      the rounded addition and subtraction of the standard;
    - a Python [dict] keyed by strings is an association list in insertion
      order (assignment to an existing key keeps the key's position);
    - a method that reads or writes [self], or prints, is a computation in
      the monad [M] (state of [self] and lines written to stdout);
      methods that never touch [self] are plain functions of their other
      arguments. *)

From Stdlib Require Import ZArith Lia List String Ascii Bool SpecFloat.
From Stdlib Require Import DecimalString.
From stdpp Require Import gmap strings list sorting.

Local Open Scope string_scope.
Local Open Scope list_scope.

(** ** Python floats *)

Module Float.

Definition prec : Z := 53.
Definition emax : Z := 1024.

Definition add (x y : spec_float) : spec_float := SFadd prec emax x y.
Definition sub (x y : spec_float) : spec_float := SFsub prec emax x y.
Definition div (x y : spec_float) : spec_float := SFdiv prec emax x y.

(** [x < y], [x <= y], [x == y], [x > y], [x >= y]; every comparison
    with a NaN is false. *)
Definition ltb (x y : spec_float) : bool := SFltb x y.
Definition leb (x y : spec_float) : bool := SFleb x y.
Definition eqb (x y : spec_float) : bool := SFeqb x y.
Definition gtb (x y : spec_float) : bool := SFltb y x.
Definition geb (x y : spec_float) : bool := SFleb y x.

Definition is_nan (x : spec_float) : bool :=
  match x with S754_nan => true | _ => false end.

(** The float nearest to an integer, and the float nearest to the
    decimal literal [n/d] (both operands are exact in every use below,
    so the quotient is the correctly rounded literal). *)
Definition of_Z (z : Z) : spec_float := binary_normalize prec emax z 0 false.
Definition lit (n d : Z) : spec_float := div (of_Z n) (of_Z d).

Definition zero : spec_float := S754_zero false.

(** Order-preserving key of a float that is not a NaN: class, then
    exponent, then mantissa, mirrored for negative numbers. *)
Definition rank (x : spec_float) : Z * Z * Z :=
  match x with
  | S754_nan => (0, 0, 0)%Z
  | S754_zero _ => (0, 0, 0)%Z
  | S754_infinity true => (-2, 0, 0)%Z
  | S754_infinity false => (2, 0, 0)%Z
  | S754_finite true m e => (-1, - e, Z.neg m)%Z
  | S754_finite false m e => (1, e, Z.pos m)%Z
  end.

Definition lex3 (a b : Z * Z * Z) : comparison :=
  let '(a1, a2, a3) := a in
  let '(b1, b2, b3) := b in
  match (a1 ?= b1)%Z with
  | Eq => match (a2 ?= b2)%Z with
          | Eq => (a3 ?= b3)%Z
          | c => c
          end
  | c => c
  end.

(** The strict lexicographic order that [lex3] decides. *)
Definition lt3 (a b : Z * Z * Z) : Prop :=
  (a.1.1 < b.1.1 \/
   (a.1.1 = b.1.1 /\ (a.1.2 < b.1.2 \/ (a.1.2 = b.1.2 /\ a.2 < b.2))))%Z.

End Float.

Abbreviation float := spec_float (only parsing).

(** The literals of the source. *)
Definition f_1_0 : float := Eval vm_compute in Float.lit 1 1.
Definition f_0_5 : float := Eval vm_compute in Float.lit 5 10.
Definition f_0_3 : float := Eval vm_compute in Float.lit 3 10.
Definition f_0_2 : float := Eval vm_compute in Float.lit 2 10.
Definition f_16 : float := Eval vm_compute in Float.of_Z 16.
Definition f_60 : float := Eval vm_compute in Float.of_Z 60.
Definition f_80 : float := Eval vm_compute in Float.of_Z 80.

(** Literals that only the specification mentions. *)
Definition f_0_7 : float := Eval vm_compute in Float.lit 7 10.
Definition f_1_5 : float := Eval vm_compute in Float.lit 15 10.
Definition f_2_0 : float := Eval vm_compute in Float.lit 2 1.
Definition f_20 : float := Eval vm_compute in Float.of_Z 20.
Definition f_85 : float := Eval vm_compute in Float.of_Z 85.

(** ** Python strings, lists and dicts *)

(** [t in s] for two strings: [t] occurs in [s] as a contiguous block. *)
Fixpoint str_contains (s t : string) : bool :=
  String.prefix t s
  || match s with
     | EmptyString => false
     | String _ s' => str_contains s' t
     end.

(** [x in l] for a list of strings (comparison by [==]). *)
Definition list_contains (l : list string) (x : string) : bool :=
  existsb (String.eqb x) l.

(** Truth value of a string and of a list: empty is false. *)
Definition str_truthy (s : string) : bool :=
  match s with EmptyString => false | String _ _ => true end.

Definition list_truthy {A : Type} (l : list A) : bool :=
  match l with [] => false | _ :: _ => true end.

(** The values a field typed [Any] holds in this development. *)
Inductive PyAny : Type :=
| PyNone
| PyBool (b : bool)
| PyInt (z : Z)
| PyFloat (x : float)
| PyStr (s : string).

Module Dict.

(** Entries in insertion order. *)
Definition t (V : Type) : Type := list (string * V).

Definition empty {V : Type} : t V := [].

(** [d.get(k)]: the value of the first entry with key [k], or [None]. *)
Fixpoint get {V : Type} (k : string) (d : t V) : option V :=
  match d with
  | [] => None
  | (k', v) :: d' => if String.eqb k' k then Some v else get k d'
  end.

(** [d[k] = v]: overwrite in place when [k] is present, else append. *)
Fixpoint setitem {V : Type} (k : string) (v : V) (d : t V) : t V :=
  match d with
  | [] => [(k, v)]
  | (k', v') :: d' =>
      if String.eqb k' k then (k', v) :: d' else (k', v') :: setitem k v d'
  end.

Definition keys {V : Type} (d : t V) : list string := map fst d.
Definition values {V : Type} (d : t V) : list V := map snd d.

End Dict.

(** [list.sort(key=..., reverse=...)] with float keys.  The sort is
    stable and compares keys with [<] only; with [reverse=True] the list
    is reversed, sorted in ascending order and reversed again, which is
    how equal keys keep their original order. *)
Section ListSort.
Context {A : Type}.
Variable key : A -> float.

Fixpoint sort_insert (x : A) (l : list A) : list A :=
  match l with
  | [] => [x]
  | y :: l' =>
      if Float.ltb (key y) (key x) then y :: sort_insert x l'
      else x :: y :: l'
  end.

Fixpoint sort_asc (l : list A) : list A :=
  match l with
  | [] => []
  | x :: l' => sort_insert x (sort_asc l')
  end.

Definition list_sort (reverse : bool) (l : list A) : list A :=
  if reverse then rev (sort_asc (rev l)) else sort_asc l.
End ListSort.

(** ** Policy data models *)

Module GPUInfo.
(** Represents a single GPU device. *)
Record t : Type := mk {
  id : Z;
  name : string;
  uuid : string;
  memory_gb : float;
  temperature_c : float;
  power_w : float;
  online : bool;
  registered : bool;
  pool : string;
  tags : list string
}.
End GPUInfo.

Module GPUPool.
(** Defines a GPU pool configuration. *)
Record t : Type := mk {
  name : string;
  gpu_types : list string;
  min_memory_gb : float;
  max_temp_c : float;
  power_policy : string;
  health_threshold : float;
  opt_strategies : list (Dict.t PyAny);
  health_checks : list (Dict.t PyAny)
}.

Definition with_gpu_types (l : list string) (p : t) : t :=
  mk (name p) l (min_memory_gb p) (max_temp_c p) (power_policy p)
     (health_threshold p) (opt_strategies p) (health_checks p).
End GPUPool.

Module ScheduleRule.
(** Defines a scheduling rule; [type] is the rule kind. *)
Record t : Type := mk {
  type : string;
  metric : option string;
  strategy : option string;
  values : option (list string);
  allow : option bool
}.
End ScheduleRule.

Module ScheduleRuleset.
(** Defines a set of scheduling rules. *)
Record t : Type := mk {
  name : string;
  rules : list ScheduleRule.t
}.
End ScheduleRuleset.

Module Policy.
(** Represents a complete policy document. *)
Record t : Type := mk {
  name : string;
  version : string;
  pools : list GPUPool.t;
  schedules : list ScheduleRuleset.t
}.
End Policy.

(** *** Construction

    The constructors are the ones [@dataclass] generates: every argument
    is stored in its field, an omitted argument takes the declared
    default, and no [__post_init__] runs. *)

Inductive exn : Type :=
| InvalidPolicyData (field : string).

Inductive outcome (A : Type) : Type :=
| Returns (a : A)
| Raises (e : exn).
Arguments Returns {A} a.
Arguments Raises {A} e.

Definition GPUInfo_init (id : Z) (name uuid : string)
    (memory_gb temperature_c power_w : float)
    (online registered : option bool) (pool : option string)
    (tags : option (list string)) : outcome GPUInfo.t :=
  Returns (GPUInfo.mk id name uuid memory_gb temperature_c power_w
             (default true online) (default false registered)
             (default "" pool) (default [] tags)).

Definition ScheduleRule_init (type : string) (metric strategy : option string)
    (values : option (list string)) (allow : option bool)
    : outcome ScheduleRule.t :=
  Returns (ScheduleRule.mk type metric strategy values allow).

(** *** Requirement mappings

    [requirements: Dict[str, Any]], with the three keys the engine reads
    typed as section 4.2 of the specification types them; each field is
    [None] when the key is absent from the mapping.  [other] holds every
    other key of the mapping. *)
Module Requirements.
Record t : Type := mk {
  min_memory : option float;
  max_temp : option float;
  tags : option (list string);
  other : gmap string PyAny
}.

(** The mapping [{}]. *)
Definition empty : t := mk None None None ∅.

Definition with_other (o : gmap string PyAny) (r : t) : t :=
  mk (min_memory r) (max_temp r) (tags r) o.
End Requirements.

(** ** Computations on [self] *)

Section Monad.
Context {S : Type}.

(** Result, final state of [self], lines printed. *)
Definition M (A : Type) : Type := S -> A * S * list string.

Definition ret {A : Type} (a : A) : M A := fun s => (a, s, []).

Definition bind {A B : Type} (m : M A) (k : A -> M B) : M B :=
  fun s =>
    let '(a, s1, o1) := m s in
    let '(b, s2, o2) := k a s1 in
    (b, s2, o1 ++ o2).

Definition gets {A : Type} (f : S -> A) : M A := fun s => (f s, s, []).
Definition modify (f : S -> S) : M unit := fun s => (tt, f s, []).
Definition print (line : string) : M unit := fun s => (tt, s, [line]).
End Monad.
Arguments M S A : clear implicits.

(** Run a method of the attribute selected by [proj] (written back by
    [upd]) from a method of the enclosing object. *)
Definition zoom {S T A : Type} (proj : S -> T) (upd : T -> S -> S)
    (m : M T A) : M S A :=
  fun s => let '(a, t', o) := m (proj s) in (a, upd t' s, o).

Definition result {S A : Type} (r : A * S * list string) : A := fst (fst r).
Definition final {S A : Type} (r : A * S * list string) : S := snd (fst r).
Definition stdout {S A : Type} (r : A * S * list string) : list string := snd r.

Declare Scope monad_scope.
Delimit Scope monad_scope with monad.
Notation "x <- m ;; k" := (bind m (fun x => k))
  (at level 100, m at next level, right associativity) : monad_scope.
Notation "m ;;; k" := (bind m (fun _ => k))
  (at level 100, right associativity) : monad_scope.
Local Open Scope monad_scope.

(** ** Starlark built-in functions: the registry *)

Module GPUOpsModule.
(** Provides GPU operations for Starlark policies. *)
Record t : Type := mk {
  pools : Dict.t GPUPool.t;
  schedules : Dict.t ScheduleRuleset.t
}.

Definition __init__ : t := mk Dict.empty Dict.empty.

Definition set_pools (d : Dict.t GPUPool.t) (self : t) : t :=
  mk d (schedules self).
Definition set_schedules (d : Dict.t ScheduleRuleset.t) (self : t) : t :=
  mk (pools self) d.

(** Register a GPU pool. *)
Definition register_pool (pool : GPUPool.t) : M t unit :=
  modify (fun self =>
    set_pools (Dict.setitem (GPUPool.name pool) pool (pools self)) self) ;;;
  print ("[Policy] Registered pool: " +:+ GPUPool.name pool).

(** Register a schedule ruleset. *)
Definition register_schedule (schedule : ScheduleRuleset.t) : M t unit :=
  modify (fun self =>
    set_schedules
      (Dict.setitem (ScheduleRuleset.name schedule) schedule (schedules self))
      self) ;;;
  print ("[Policy] Registered schedule: " +:+ ScheduleRuleset.name schedule).

(** Get a pool by name. *)
Definition get_pool (name : string) : M t (option GPUPool.t) :=
  gets (fun self => Dict.get name (pools self)).

(** Get all pools. *)
Definition get_all_pools : M t (list GPUPool.t) :=
  gets (fun self => Dict.values (pools self)).

(** Get a schedule by name. *)
Definition get_schedule (name : string) : M t (option ScheduleRuleset.t) :=
  gets (fun self => Dict.get name (schedules self)).
End GPUOpsModule.

(** ** Policy engine *)

Module PolicyEngine.
(** Main policy engine for evaluating Starlark policies. *)
Record t : Type := mk {
  policy_dir : string;
  policies : Dict.t Policy.t;
  gpu_ops : GPUOpsModule.t
}.

Definition __init__ (policy_dir : option string) : t :=
  mk (match policy_dir with
      | Some d => if str_truthy d then d else "./policies"
      | None => "./policies"
      end)
     Dict.empty GPUOpsModule.__init__.

Definition set_gpu_ops (g : GPUOpsModule.t) (self : t) : t :=
  mk (policy_dir self) (policies self) g.

(** A call [self.gpu_ops.method(...)]. *)
Definition on_gpu_ops {A : Type} (m : M GPUOpsModule.t A) : M t A :=
  zoom gpu_ops set_gpu_ops m.

(** Check if GPU matches pool criteria. *)
Definition _matches_pool (gpu : GPUInfo.t) (pool : GPUPool.t) : bool :=
  let checks_after_types :=
    if Float.ltb (GPUInfo.memory_gb gpu) (GPUPool.min_memory_gb pool) then false
    else if Float.gtb (GPUInfo.temperature_c gpu) (GPUPool.max_temp_c pool) then false
    else if str_truthy (GPUInfo.pool gpu)
            && negb (String.eqb (GPUInfo.pool gpu) (GPUPool.name pool)) then false
    else true in
  if list_truthy (GPUPool.gpu_types pool)
     && negb (list_contains (GPUPool.gpu_types pool) (GPUInfo.name gpu)) then
    (* Partial matching (contains any of the types) *)
    if negb (existsb (fun t => str_contains (GPUInfo.name gpu) t)
                     (GPUPool.gpu_types pool)) then false
    else checks_after_types
  else checks_after_types.

(** Check if GPU meets specific requirements. *)
Definition _meets_requirements (gpu : GPUInfo.t)
    (requirements : Requirements.t) : bool :=
  if match Requirements.min_memory requirements with
     | Some min_memory => Float.ltb (GPUInfo.memory_gb gpu) min_memory
     | None => false
     end then false
  else if match Requirements.max_temp requirements with
          | Some max_temp => Float.gtb (GPUInfo.temperature_c gpu) max_temp
          | None => false
          end then false
  else match Requirements.tags requirements with
       | Some tags =>
           let required_tags : gset string := list_to_set tags in
           let available_tags : gset string := list_to_set (GPUInfo.tags gpu) in
           if negb (bool_decide (required_tags ⊆ available_tags)) then false
           else true
       | None => true
       end.

(** Calculate a suitability score for a GPU. *)
Definition _score_gpu (gpu : GPUInfo.t) : float :=
  let score := f_1_0 in
  (* Prefer GPUs with better health *)
  let score := if GPUInfo.online gpu then Float.add score f_0_5 else score in
  (* Prefer GPUs with more memory *)
  let score :=
    if Float.geb (GPUInfo.memory_gb gpu) f_16 then Float.add score f_0_3
    else score in
  (* Prefer cooler GPUs; penalize high temperature *)
  let score :=
    if Float.ltb (GPUInfo.temperature_c gpu) f_60 then Float.add score f_0_2
    else if Float.gtb (GPUInfo.temperature_c gpu) f_80 then Float.sub score f_0_3
    else score in
  score.

(** The loop of [evaluate_allocation]: return at the first pool that
    admits the device. *)
Fixpoint evaluate_allocation_loop (gpu : GPUInfo.t)
    (requirements : Requirements.t) (pools : list GPUPool.t) : bool :=
  match pools with
  | [] => false
  | pool :: rest =>
      if _matches_pool gpu pool && _meets_requirements gpu requirements
      then true
      else evaluate_allocation_loop gpu requirements rest
  end.

(** Evaluate if a GPU meets allocation requirements. *)
Definition evaluate_allocation (gpu : GPUInfo.t)
    (requirements : Requirements.t) : M t bool :=
  pools <- on_gpu_ops GPUOpsModule.get_all_pools ;;
  ret (evaluate_allocation_loop gpu requirements pools).

(** The loop of [get_recommended_gpus], threading the list
    [recommended] of (device, score) pairs. *)
Fixpoint get_recommended_gpus_loop (gpus : list GPUInfo.t)
    (requirements : Requirements.t) (recommended : list (GPUInfo.t * float))
    : M t (list (GPUInfo.t * float)) :=
  match gpus with
  | [] => ret recommended
  | gpu :: rest =>
      ok <- evaluate_allocation gpu requirements ;;
      if ok then
        let score := _score_gpu gpu in
        get_recommended_gpus_loop rest requirements
          (recommended ++ [(gpu, score)])
      else get_recommended_gpus_loop rest requirements recommended
  end.

(** Get list of recommended GPUs based on policy. *)
Definition get_recommended_gpus (gpus : list GPUInfo.t)
    (requirements : Requirements.t) : M t (list GPUInfo.t) :=
  recommended <- get_recommended_gpus_loop gpus requirements [] ;;
  (* Sort by score (descending) *)
  let recommended := list_sort snd true recommended in
  ret (map fst recommended).
End PolicyEngine.

(** ** Traces of registry calls *)

Inductive call : Type :=
| RegisterPool (pool : GPUPool.t)
| RegisterSchedule (schedule : ScheduleRuleset.t).

Definition run_call (c : call) : M GPUOpsModule.t unit :=
  match c with
  | RegisterPool pool => GPUOpsModule.register_pool pool
  | RegisterSchedule schedule => GPUOpsModule.register_schedule schedule
  end.

Fixpoint run_calls (cs : list call) : M GPUOpsModule.t unit :=
  match cs with
  | [] => ret tt
  | c :: cs' => run_call c ;;; run_calls cs'
  end.

(** The registry after a trace of calls on a fresh module. *)
Definition registry_after (cs : list call) : GPUOpsModule.t :=
  final (run_calls cs GPUOpsModule.__init__).

(** ** Definitions that follow the specification's words *)

(** [t] occurs in [s] as a (case-sensitive) substring. *)
Definition occurs_in (t s : string) : Prop :=
  exists pre post : string, s = pre +:+ t +:+ post.

(** A summand that applies only under a condition. *)
Definition when (c : bool) (x : float) : float :=
  if c then x else Float.zero.

(** Section 4.3: base 1.0, +0.5 if online, +0.3 if memory >= 16, +0.2 if
    temperature < 60, -0.3 if temperature > 80. *)
Definition score_spec (D : GPUInfo.t) : float :=
  Float.sub
    (Float.add
       (Float.add
          (Float.add f_1_0 (when (GPUInfo.online D) f_0_5))
          (when (Float.geb (GPUInfo.memory_gb D) f_16) f_0_3))
       (when (Float.ltb (GPUInfo.temperature_c D) f_60) f_0_2))
    (when (Float.gtb (GPUInfo.temperature_c D) f_80) f_0_3).

(** Criterion 1 of [matches_pool] in section 4.2: a pool that lists name
    substrings accepts the device names that contain one of them. *)
Definition accepts_name (D : GPUInfo.t) (P : GPUPool.t) : bool :=
  negb (list_truthy (GPUPool.gpu_types P))
  || existsb (fun t => str_contains (GPUInfo.name D) t) (GPUPool.gpu_types P).

(** Criteria 2 to 4 as the code tests them: memory not below the floor,
    temperature not above the ceiling, assigned pool empty or this pool. *)
Definition accepts_rest (D : GPUInfo.t) (P : GPUPool.t) : bool :=
  negb (Float.ltb (GPUInfo.memory_gb D) (GPUPool.min_memory_gb P))
  && negb (Float.gtb (GPUInfo.temperature_c D) (GPUPool.max_temp_c P))
  && negb (str_truthy (GPUInfo.pool D)
           && negb (String.eqb (GPUInfo.pool D) (GPUPool.name P))).

(** [a] may stand before [b] in ascending order of keys: the key of [b]
    is not below the key of [a]. *)
Definition asc_by {A : Type} (key : A -> float) (a b : A) : Prop :=
  Float.ltb (key b) (key a) = false.

(** The elements whose key equals [s], in the order they have in [l]. *)
Definition with_key_by {A : Type} (key : A -> float) (s : float)
    (l : list A) : list A :=
  List.filter (fun a => Float.eqb (key a) s) l.

(** The verdict of [evaluate_allocation] in engine state [e], and the
    pools [get_all_pools] lists there. *)
Definition evaluate (e : PolicyEngine.t) (R : Requirements.t)
    (gpu : GPUInfo.t) : bool :=
  result (PolicyEngine.evaluate_allocation gpu R e).

Definition registered_pools (e : PolicyEngine.t) : list GPUPool.t :=
  Dict.values (GPUOpsModule.pools (PolicyEngine.gpu_ops e)).

(** Registration traces, in the specification's words: the pools and the
    rulesets a trace registers, in call order; the value most recently
    registered under a name; and the distinct names of a list in the
    order of their first occurrence. *)
Fixpoint pools_of (cs : list call) : list GPUPool.t :=
  match cs with
  | [] => []
  | RegisterPool pool :: cs' => pool :: pools_of cs'
  | RegisterSchedule _ :: cs' => pools_of cs'
  end.

Fixpoint schedules_of (cs : list call) : list ScheduleRuleset.t :=
  match cs with
  | [] => []
  | RegisterPool _ :: cs' => schedules_of cs'
  | RegisterSchedule schedule :: cs' => schedule :: schedules_of cs'
  end.

Definition last_named {V : Type} (name : V -> string) (n : string)
    (l : list V) : option V :=
  fold_left (fun acc v => if String.eqb (name v) n then Some v else acc) l None.

Definition first_names (names : list string) : list string :=
  fold_left (fun acc n => if list_contains acc n then acc else acc ++ [n])
            names [].

(** The dict that registering the values of [l] in turn, each under its
    name, builds from the empty dict. *)
Definition dict_after {V : Type} (name : V -> string) (l : list V)
    : Dict.t V :=
  fold_left (fun d v => Dict.setitem (name v) v d) l Dict.empty.

(** Every entry of the dict is stored under the name of its value. *)
Definition keyed_by {V : Type} (name : V -> string) (d : Dict.t V) : Prop :=
  forall (k : string) (v : V), In (k, v) d -> k = name v.

(** The fixtures of the end-to-end scenarios of section 8: the pool
    "high-mem" registered on a fresh engine, a device "X" with the given
    memory, temperature and online flag, and the request for 16 GB. *)
Definition scenario_pool : GPUPool.t :=
  GPUPool.mk "high-mem" [] f_16 f_80 "adaptive" (Float.lit 9 10) [] [].

Definition scenario_engine : PolicyEngine.t :=
  final (PolicyEngine.on_gpu_ops (GPUOpsModule.register_pool scenario_pool)
           (PolicyEngine.__init__ None)).

Definition scenario_device (id memory_gb temperature_c : Z) (online : bool)
    : GPUInfo.t :=
  GPUInfo.mk id "X" "GPU-0" (Float.of_Z memory_gb) (Float.of_Z temperature_c)
    (Float.of_Z 10) online false "" [].

Definition scenario_requirements : Requirements.t :=
  Requirements.mk (Some f_16) None None ∅.

(** ** Starlark factory functions

    Keyword arguments ([**kwargs]) that end up in an untyped record are a
    dict of [PyAny]; those that fill the typed fields of a pool are the
    optional arguments the body reads with [kwargs.get]. *)

(** The dict display [{k0: v0, **kwargs}]: the entries of [kwargs] are
    assigned in order to the dict that holds the leading entries. *)
Definition dict_display {V : Type} (leading kwargs : Dict.t V) : Dict.t V :=
  fold_left (fun d kv => Dict.setitem kv.1 kv.2 d) kwargs leading.

Definition _create_optimize_clock (kwargs : Dict.t PyAny) : Dict.t PyAny :=
  dict_display [("type", PyStr "clock")] kwargs.

Definition _create_optimize_memory (kwargs : Dict.t PyAny) : Dict.t PyAny :=
  dict_display [("type", PyStr "memory")] kwargs.

Definition _create_optimize_power (kwargs : Dict.t PyAny) : Dict.t PyAny :=
  dict_display [("type", PyStr "power")] kwargs.

Definition _create_health_check (name : string) (kwargs : Dict.t PyAny)
    : Dict.t PyAny :=
  dict_display [("name", PyStr name)] kwargs.

(** Create a GPU pool from kwargs.  [gpu_type] is a string or a list of
    strings; a string is wrapped in a one-element list. *)
Definition _create_gpu_pool (name : option string)
    (gpu_type : option (string + list string))
    (min_memory_gb max_temp_c : option float) (power_policy : option string)
    (health_threshold : option float)
    (opt_strategies health_checks : option (list (Dict.t PyAny)))
    : GPUPool.t :=
  (* Extract type hints *)
  let gpu_type := default (inr []) gpu_type in
  let gpu_type :=
    match gpu_type with
    | inl s => [s]
    | inr l => l
    end in
  GPUPool.mk (default "default" name) gpu_type
    (default Float.zero min_memory_gb)
    (default (Float.of_Z 100) max_temp_c)
    (default "adaptive" power_policy)
    (default (Float.lit 9 10) health_threshold)
    (default [] opt_strategies) (default [] health_checks).

(** ** Policy loading *)

(** *** The pattern of the placeholder parser

    [re.findall(r'name\s*=\s*["\'](\w+)["\']', code)].  A character of a
    string stands for the code point of the same number, and the classes
    [\w] and [\s] are the ones [re] has on these code points. *)

Definition in_range (lo hi : nat) (c : ascii) : bool :=
  (lo <=? nat_of_ascii c)%nat && (nat_of_ascii c <=? hi)%nat.

(** [\w] *)
Definition is_word_char (c : ascii) : bool :=
  in_range 48 57 c || in_range 65 90 c || in_range 95 95 c
  || in_range 97 122 c || in_range 170 170 c || in_range 178 179 c
  || in_range 181 181 c || in_range 185 186 c || in_range 188 190 c
  || in_range 192 214 c || in_range 216 246 c || in_range 248 255 c.

(** [\s] *)
Definition is_space_char (c : ascii) : bool :=
  in_range 9 13 c || in_range 28 32 c || in_range 133 133 c
  || in_range 160 160 c.

(** The class of the two quote characters. *)
Definition is_quote_char (c : ascii) : bool :=
  in_range 34 34 c || in_range 39 39 c.

(** What is left of [s] after the literal [p], when [s] starts with it. *)
Fixpoint strip_literal (p s : string) : option string :=
  match p with
  | EmptyString => Some s
  | String a p' =>
      match s with
      | EmptyString => None
      | String b s' => if Ascii.eqb a b then strip_literal p' s' else None
      end
  end.

(** [\s*]: what is left after the longest run of whitespace. *)
Fixpoint skip_spaces (s : string) : string :=
  match s with
  | EmptyString => EmptyString
  | String c s' => if is_space_char c then skip_spaces s' else s
  end.

(** [\w+], without the check that it is not empty: the longest run of
    word characters and what is left after it. *)
Fixpoint take_word (s : string) : string * string :=
  match s with
  | EmptyString => (EmptyString, EmptyString)
  | String c s' =>
      if is_word_char c then
        let '(w, rest) := take_word s' in (String c w, rest)
      else (EmptyString, s)
  end.

(** A match of the pattern at the start of [s]: the group and what is
    left after the match.  No shorter run of whitespace or of word
    characters can succeed where the longest fails, since the character
    that has to follow each run is outside its class. *)
Definition match_pool_name (s : string) : option (string * string) :=
  match strip_literal "name" s with
  | Some s1 =>
      match skip_spaces s1 with
      | String c s2 =>
          if Ascii.eqb c "=" then
            match skip_spaces s2 with
            | String q s3 =>
                if is_quote_char q then
                  match take_word s3 with
                  | (String c0 w, String q' s4) =>
                      if is_quote_char q' then Some (String c0 w, s4)
                      else None
                  | _ => None
                  end
                else None
            | EmptyString => None
            end
          else None
      | EmptyString => None
      end
  | None => None
  end.

(** The matches from left to right, not overlapping: after a match the
    scan goes on behind it, otherwise one character further.  [fuel]
    bounds the number of steps. *)
Fixpoint findall_pool_names_fuel (fuel : nat) (s : string) : list string :=
  match fuel with
  | O => []
  | S fuel' =>
      match match_pool_name s with
      | Some (w, rest) => w :: findall_pool_names_fuel fuel' rest
      | None =>
          match s with
          | EmptyString => []
          | String _ s' => findall_pool_names_fuel fuel' s'
          end
      end
  end.

Definition findall_pool_names (code : string) : list string :=
  findall_pool_names_fuel (S (String.length code)) code.

(** *** The file system

    What the loader asks of [pathlib] and [open], for paths written as
    strings: [str(Path(p))], [str(Path(d) / p)], [Path(p).exists()],
    [Path(p).stem], the text of the file or the message of the exception
    that reading it raises, and the paths [Path(d).glob("*.gsky")] yields,
    in the order it yields them. *)
Inductive read_result : Type :=
| ReadOk (text : string)
| ReadError (message : string).

Record FileSystem : Type := {
  fs_Path : string -> string;
  fs_joinpath : string -> string -> string;
  fs_exists : string -> bool;
  fs_stem : string -> string;
  fs_read : string -> read_result;
  fs_glob_gsky : string -> list string
}.

Module Loading.
Import PolicyEngine.

Definition set_policies (d : Dict.t Policy.t) (self : PolicyEngine.t)
    : PolicyEngine.t :=
  PolicyEngine.mk (policy_dir self) d (gpu_ops self).

(** [Policy(name=name)], with the declared defaults. *)
Definition Policy_init (name : string) : Policy.t :=
  Policy.mk name "1.0" [] [].

Fixpoint print_detected (pool_names : list string) : M PolicyEngine.t unit :=
  match pool_names with
  | [] => ret tt
  | pool_name :: rest =>
      print ("[Policy] Detected pool: " +:+ pool_name) ;;;
      print_detected rest
  end.

(** Simple policy parser (placeholder for actual Starlark interpreter). *)
Definition _parse_policy_simple (code name : string) : M PolicyEngine.t unit :=
  (* Extract basic information from the policy *)
  print ("[Policy] Parsing: " +:+ name) ;;;
  print "[Policy] This is a placeholder for actual Starlark execution" ;;;
  (* For now, create a mock policy with basic info *)
  modify (fun self =>
    set_policies (Dict.setitem name (Policy_init name) (policies self)) self) ;;;
  (* Extract pool definitions (simple regex-based for demo) *)
  let pool_names := findall_pool_names code in
  print_detected pool_names.

(** The part of [load_policy] behind the existence checks. *)
Definition load_policy_from (fs : FileSystem) (path : string)
    : M PolicyEngine.t bool :=
  print ("[Policy] Loading policy from: " +:+ path) ;;;
  match fs_read fs path with
  | ReadOk code =>
      _parse_policy_simple code (fs_stem fs path) ;;;
      ret true
  | ReadError e =>
      print ("[Policy] Error loading policy: " +:+ e) ;;;
      ret false
  end.

(** Load a policy from a file. *)
Definition load_policy (fs : FileSystem) (policy_path : string)
    : M PolicyEngine.t bool :=
  let path := fs_Path fs policy_path in
  if negb (fs_exists fs path) then
    (* Try relative to policy_dir *)
    path <- gets (fun self => fs_joinpath fs (policy_dir self) policy_path) ;;
    if negb (fs_exists fs path) then
      print ("[Policy] Policy not found: " +:+ policy_path) ;;;
      ret false
    else load_policy_from fs path
  else load_policy_from fs path.

Fixpoint load_all_policies_loop (fs : FileSystem) (files : list string)
    (count : nat) : M PolicyEngine.t nat :=
  match files with
  | [] => ret count
  | policy_file :: rest =>
      ok <- load_policy fs policy_file ;;
      load_all_policies_loop fs rest (if ok then S count else count)
  end.

(** Load all policies from the policy directory. *)
Definition load_all_policies (fs : FileSystem) : M PolicyEngine.t nat :=
  let count := O in
  dir <- gets (fun self => fs_Path fs (policy_dir self)) ;;
  if negb (fs_exists fs dir) then
    print ("[Policy] Policy directory not found: " +:+ dir) ;;;
    ret count
  else
    count <- load_all_policies_loop fs (fs_glob_gsky fs dir) count ;;
    print ("[Policy] Loaded "
           +:+ NilEmpty.string_of_uint (Nat.to_uint count)
           +:+ " policy file(s)") ;;;
    ret count.

End Loading.

(** The path [load_policy] reads for [policy_path]: the path as given if
    it exists, else the path under the policy directory if that exists. *)
Definition resolve (fs : FileSystem) (dir policy_path : string)
    : option string :=
  if fs_exists fs (fs_Path fs policy_path) then Some (fs_Path fs policy_path)
  else if fs_exists fs (fs_joinpath fs dir policy_path)
       then Some (fs_joinpath fs dir policy_path)
       else None.

(** The text [load_policy] parses for [policy_path], if it gets one. *)
Definition loadable (fs : FileSystem) (dir policy_path : string)
    : option (string * string) :=
  match resolve fs dir policy_path with
  | Some path =>
      match fs_read fs path with
      | ReadOk code => Some (path, code)
      | ReadError _ => None
      end
  | None => None
  end.

(** The line a registry call prints. *)
Definition line_of_call (c : call) : string :=
  match c with
  | RegisterPool pool => "[Policy] Registered pool: " +:+ GPUPool.name pool
  | RegisterSchedule schedule =>
      "[Policy] Registered schedule: " +:+ ScheduleRuleset.name schedule
  end.

(** Every character of the string is in the class. *)
Fixpoint str_forallb (f : ascii -> bool) (s : string) : bool :=
  match s with
  | EmptyString => true
  | String c s' => f c && str_forallb f s'
  end.

(** Whether [load_policy] gets a text for [policy_path]. *)
Definition can_load (fs : FileSystem) (dir policy_path : string) : bool :=
  match loadable fs dir policy_path with
  | Some _ => true
  | None => false
  end.

(** The stems under which loading the files [files] in turn stores a
    policy: those of the files that resolve and can be read. *)
Definition loaded_stems (fs : FileSystem) (dir : string)
    (files : list string) : list string :=
  omap (fun f => match loadable fs dir f with
                 | Some (path, _) => Some (fs_stem fs path)
                 | None => None
                 end) files.

(** A small file system for examples: a directory "policies" that holds
    two readable policy files and one that cannot be read. *)
Definition example_fs : FileSystem := {|
  fs_Path := fun p => p;
  fs_joinpath := fun d p => d +:+ "/" +:+ p;
  fs_exists := fun p =>
    list_contains
      ["policies"; "policies/a.gsky"; "policies/b.gsky"; "policies/bad.gsky"] p;
  fs_stem := fun p =>
    if String.eqb p "policies/a.gsky" then "a"
    else if String.eqb p "policies/b.gsky" then "b"
    else if String.eqb p "policies/bad.gsky" then "bad"
    else p;
  fs_read := fun p =>
    if String.eqb p "policies/a.gsky" then ReadOk "name = 'fast'"
    else if String.eqb p "policies/b.gsky" then ReadOk "pools = []"
    else ReadError "Permission denied";
  fs_glob_gsky := fun d =>
    if String.eqb d "policies"
    then ["policies/a.gsky"; "policies/bad.gsky"; "policies/b.gsky"]
    else []
|}.

Definition example_engine : PolicyEngine.t :=
  PolicyEngine.__init__ (Some "policies").

(** What a dict display [{key0: v0, **kwargs}] holds: under [key0] the
    value [kwargs] gives it, or else [v0]; under any other key what
    [kwargs] holds; [key0] first, then the other keys of [kwargs] in their
    order. *)
Definition displays {V : Type} (key0 : string) (v0 : V) (kwargs r : Dict.t V)
    : Prop :=
  Dict.get key0 r = Some (default v0 (Dict.get key0 kwargs))
  /\ (forall k : string, k <> key0 -> Dict.get k r = Dict.get k kwargs)
  /\ Dict.keys r
     = key0 :: List.filter (fun k => negb (String.eqb k key0)) (Dict.keys kwargs).

(** * Properties *)

(** ** The order of floats *)

Module FloatFacts.
Import Float.

Lemma lex3_spec (a b : Z * Z * Z) :
  match lex3 a b with
  | Lt => lt3 a b
  | Eq => a = b
  | Gt => lt3 b a
  end.
Proof.
  destruct a as [[a1 a2] a3], b as [[b1 b2] b3]; unfold lex3, lt3; simpl.
  destruct (Z.compare_spec a1 b1); [subst | lia | lia].
  destruct (Z.compare_spec a2 b2); [subst | lia | lia].
  destruct (Z.compare_spec a3 b3); [subst; reflexivity | lia | lia].
Qed.

Lemma lt3_irrefl (a : Z * Z * Z) : ~ lt3 a a.
Proof. unfold lt3; lia. Qed.

Lemma lt3_trans (a b c : Z * Z * Z) : lt3 a b -> lt3 b c -> lt3 a c.
Proof. unfold lt3; lia. Qed.

Lemma SFcompare_rank (x y : float) :
  is_nan x = false -> is_nan y = false ->
  SFcompare x y = Some (lex3 (rank x) (rank y)).
Proof.
  destruct x as [[|]|[|]| |[|] m1 e1], y as [[|]|[|]| |[|] m2 e2];
    simpl; intros Hx Hy; try discriminate; try reflexivity.
  rewrite Z.compare_opp, (Z.compare_antisym e1 e2).
  destruct (e1 ?= e2)%Z; reflexivity.
Qed.

Lemma ltb_lt3 (x y : float) :
  is_nan x = false -> is_nan y = false ->
  (ltb x y = true <-> lt3 (rank x) (rank y)).
Proof.
  intros Hx Hy. unfold ltb, SFltb. rewrite SFcompare_rank by assumption.
  pose proof (lex3_spec (rank x) (rank y)) as H.
  destruct (lex3 (rank x) (rank y)); split; intros H'; try discriminate;
    try reflexivity.
  - rewrite H in H'. destruct (lt3_irrefl _ H').
  - assumption.
  - destruct (lt3_irrefl _ (lt3_trans _ _ _ H H')).
Qed.

Lemma leb_lt3 (x y : float) :
  is_nan x = false -> is_nan y = false ->
  (leb x y = true <-> ~ lt3 (rank y) (rank x)).
Proof.
  intros Hx Hy. unfold leb, SFleb. rewrite SFcompare_rank by assumption.
  pose proof (lex3_spec (rank x) (rank y)) as H.
  destruct (lex3 (rank x) (rank y)); split; intros H'; try discriminate;
    try reflexivity.
  - rewrite H. apply lt3_irrefl.
  - intros H''. destruct (lt3_irrefl _ (lt3_trans _ _ _ H H'')).
  - contradiction.
Qed.

Lemma eqb_rank (x y : float) :
  is_nan x = false -> is_nan y = false ->
  (eqb x y = true <-> rank x = rank y).
Proof.
  intros Hx Hy. unfold eqb, SFeqb. rewrite SFcompare_rank by assumption.
  pose proof (lex3_spec (rank x) (rank y)) as H.
  destruct (lex3 (rank x) (rank y)); split; intros H'; try discriminate;
    try reflexivity; try assumption.
  - rewrite H' in H. destruct (lt3_irrefl _ H).
  - rewrite H' in H. destruct (lt3_irrefl _ H).
Qed.

(** A comparison that holds has no NaN operand. *)
Lemma ltb_true_not_nan (x y : float) :
  ltb x y = true -> is_nan x = false /\ is_nan y = false.
Proof. destruct x, y; simpl; try discriminate; auto. Qed.

Lemma leb_true_not_nan (x y : float) :
  leb x y = true -> is_nan x = false /\ is_nan y = false.
Proof. destruct x, y; simpl; try discriminate; auto. Qed.

Lemma eqb_true_not_nan (x y : float) :
  eqb x y = true -> is_nan x = false /\ is_nan y = false.
Proof. destruct x, y; simpl; try discriminate; auto. Qed.

(** [not (x < y)] is [x >= y] when neither is a NaN. *)
Lemma ltb_false_geb (x y : float) :
  is_nan x = false -> is_nan y = false ->
  (ltb x y = false <-> geb x y = true).
Proof.
  intros Hx Hy. unfold geb. fold (leb y x).
  rewrite (leb_lt3 y x) by assumption.
  rewrite <- (ltb_lt3 x y) by assumption.
  destruct (ltb x y); split; intros H; try discriminate; try reflexivity.
  destruct H; reflexivity.
Qed.

(** [not (x > y)] is [x <= y] when neither is a NaN. *)
Lemma gtb_false_leb (x y : float) :
  is_nan x = false -> is_nan y = false ->
  (gtb x y = false <-> leb x y = true).
Proof. intros Hx Hy. apply (ltb_false_geb y x); assumption. Qed.

Lemma ltb_trans (x y z : float) :
  ltb x y = true -> ltb y z = true -> ltb x z = true.
Proof.
  intros Hxy Hyz.
  destruct (ltb_true_not_nan _ _ Hxy) as [Hx Hy].
  destruct (ltb_true_not_nan _ _ Hyz) as [_ Hz].
  apply ltb_lt3 in Hxy, Hyz; try assumption.
  apply ltb_lt3; try assumption. eapply lt3_trans; eassumption.
Qed.

Lemma ltb_irrefl (x : float) : ltb x x = false.
Proof.
  destruct (ltb x x) eqn:H; [| reflexivity].
  destruct (ltb_true_not_nan _ _ H) as [Hx _].
  apply ltb_lt3 in H; try assumption. destruct (lt3_irrefl _ H).
Qed.

Lemma ltb_asym (x y : float) : ltb x y = true -> ltb y x = false.
Proof.
  intros H. destruct (ltb y x) eqn:H'; [| reflexivity].
  rewrite <- (ltb_irrefl x). symmetry. eapply ltb_trans; eassumption.
Qed.

(** Incomparability is transitive away from NaN. *)
Lemma ltb_false_trans (x y z : float) :
  is_nan y = false ->
  ltb x y = false -> ltb y z = false -> ltb x z = false.
Proof.
  intros Hy Hxy Hyz. destruct (ltb x z) eqn:Hxz; [| reflexivity].
  destruct (ltb_true_not_nan _ _ Hxz) as [Hx Hz].
  apply ltb_lt3 in Hxz; try assumption.
  assert (~ lt3 (rank x) (rank y)) as N1
    by (rewrite <- ltb_lt3 by assumption; congruence).
  assert (~ lt3 (rank y) (rank z)) as N2
    by (rewrite <- ltb_lt3 by assumption; congruence).
  exfalso. unfold lt3 in *. lia.
Qed.

(** Keys equal to the same float are not strictly ordered. *)
Lemma eqb_ltb_false (x y s : float) :
  eqb x s = true -> eqb y s = true -> ltb x y = false.
Proof.
  intros Hx Hy.
  destruct (eqb_true_not_nan _ _ Hx) as [Nx Ns].
  destruct (eqb_true_not_nan _ _ Hy) as [Ny _].
  apply eqb_rank in Hx, Hy; try assumption.
  destruct (ltb x y) eqn:H; [| reflexivity].
  apply ltb_lt3 in H; try assumption.
  rewrite Hx, Hy in H. destruct (lt3_irrefl _ H).
Qed.

(** A strictly smaller key is not equal to what the larger equals. *)
Lemma ltb_eqb_false (x y s : float) :
  ltb x y = true -> eqb y s = true -> eqb x s = false.
Proof.
  intros H Hy. destruct (eqb x s) eqn:Hx; [| reflexivity].
  rewrite (eqb_ltb_false _ _ _ Hx Hy) in H. discriminate.
Qed.

(** Equal floats pass [<=] and [>=]. *)
Lemma eqb_leb (x y : float) :
  eqb x y = true -> leb x y = true /\ geb x y = true.
Proof.
  intros H. destruct (eqb_true_not_nan _ _ H) as [Hx Hy].
  apply eqb_rank in H; try assumption. unfold geb. fold (leb y x).
  split; apply leb_lt3; try assumption; rewrite H; apply lt3_irrefl.
Qed.

Lemma leb_true_ltb_false (x y : float) : leb x y = true -> ltb y x = false.
Proof.
  intros H. destruct (leb_true_not_nan _ _ H) as [Hx Hy].
  apply ltb_false_geb; assumption.
Qed.
End FloatFacts.

(** ** Strings *)

Section Strings.

Lemma prefix_spec (t s : string) :
  String.prefix t s = true <-> exists post : string, s = t +:+ post.
Proof.
  revert s. induction t as [| a t IH]; intros s; simpl.
  - split; [intros _; exists s; reflexivity | destruct s; reflexivity].
  - destruct s as [| b s]; simpl.
    + split; [discriminate | intros [post H]; discriminate].
    + destruct (Ascii.ascii_dec a b) as [-> | Hab].
      * rewrite IH. split; intros [post H]; exists post.
        -- rewrite H. reflexivity.
        -- injection H as H. exact H.
      * split; [discriminate |].
        intros [post H]. injection H as H1 H2. congruence.
Qed.

Lemma str_contains_spec (s t : string) :
  str_contains s t = true <-> occurs_in t s.
Proof.
  unfold occurs_in. induction s as [| a s IH].
  - change (str_contains "" t) with (String.prefix t "" || false).
    rewrite orb_false_r, prefix_spec. split.
    + intros [post H]. exists "", post. exact H.
    + intros (pre & post & H). destruct pre; [| discriminate].
      exists post. exact H.
  - change (str_contains (String a s) t)
      with (String.prefix t (String a s) || str_contains s t).
    rewrite orb_true_iff, prefix_spec, IH. split.
    + intros [[post H] | (pre & post & H)].
      * exists "", post. exact H.
      * exists (String a pre), post. simpl. rewrite H. reflexivity.
    + intros (pre & post & H). destruct pre as [| b pre]; simpl in H.
      * left. exists post. exact H.
      * right. injection H as _ H. exists pre, post. exact H.
Qed.

Lemma str_contains_refl (s : string) : str_contains s s = true.
Proof.
  apply str_contains_spec. exists "", "".
  change ("" +:+ s +:+ "") with (s +:+ "").
  induction s as [| a s IH]; [reflexivity |].
  change (String a s +:+ "") with (String a (s +:+ "")).
  rewrite <- IH. reflexivity.
Qed.

Lemma str_truthy_spec (s : string) : str_truthy s = true <-> s <> "".
Proof. destruct s; simpl; split; congruence. Qed.

Lemma list_truthy_spec {A : Type} (l : list A) : list_truthy l = true <-> l <> [].
Proof. destruct l; simpl; split; congruence. Qed.

End Strings.

(** ** What the engine's methods compute *)

Section Runs.
Import PolicyEngine.

Lemma evaluate_allocation_run (gpu : GPUInfo.t) (R : Requirements.t)
    (e : PolicyEngine.t) :
  evaluate_allocation gpu R e
  = (evaluate_allocation_loop gpu R (registered_pools e), e, []).
Proof. destruct e as [d ps g]. reflexivity. Qed.

Lemma get_recommended_gpus_loop_run (R : Requirements.t) (e : PolicyEngine.t) :
  forall (gpus : list GPUInfo.t) (acc : list (GPUInfo.t * float)),
    get_recommended_gpus_loop gpus R acc e
    = (acc ++ map (fun g => (g, _score_gpu g)) (List.filter (evaluate e R) gpus),
       e, []).
Proof.
  induction gpus as [| g gpus IH]; intros acc; simpl.
  - unfold ret. rewrite app_nil_r. reflexivity.
  - unfold bind at 1. unfold evaluate at 1.
    rewrite evaluate_allocation_run. unfold result. simpl.
    destruct (evaluate_allocation_loop g R (registered_pools e)).
    + rewrite IH. simpl. rewrite <- app_assoc. reflexivity.
    + rewrite IH. reflexivity.
Qed.

Lemma get_recommended_gpus_run (gpus : list GPUInfo.t) (R : Requirements.t)
    (e : PolicyEngine.t) :
  get_recommended_gpus gpus R e
  = (map fst (list_sort snd true
                (map (fun g => (g, _score_gpu g)) (List.filter (evaluate e R) gpus))),
     e, []).
Proof.
  unfold get_recommended_gpus, bind.
  rewrite get_recommended_gpus_loop_run. reflexivity.
Qed.

End Runs.

(** ** The score *)

Section Score.
Import PolicyEngine.

Lemma cool_not_hot (t : float) :
  Float.ltb t f_60 = true -> Float.gtb t f_80 = false.
Proof.
  intros Hc. unfold Float.gtb. fold (Float.ltb f_80 t).
  destruct (Float.ltb f_80 t) eqn:Hh; [| reflexivity].
  pose proof (FloatFacts.ltb_trans _ _ _ Hh Hc) as F.
  vm_compute in F. discriminate.
Qed.

Ltac score_cases D :=
  unfold _score_gpu, score_spec;
  destruct (GPUInfo.online D);
  destruct (Float.geb (GPUInfo.memory_gb D) f_16) eqn:Hmem;
  destruct (Float.ltb (GPUInfo.temperature_c D) f_60) eqn:Hcool;
  try rewrite (cool_not_hot _ Hcool);
  try destruct (Float.gtb (GPUInfo.temperature_c D) f_80) eqn:Hhot.

Lemma score_eq_spec (D : GPUInfo.t) : _score_gpu D = score_spec D.
Proof. score_cases D; vm_compute; reflexivity. Qed.

Lemma score_not_nan (D : GPUInfo.t) : Float.is_nan (_score_gpu D) = false.
Proof. score_cases D; vm_compute; reflexivity. Qed.

(** Every pair the ranking loop adds carries the score of its device. *)
Lemma loop_scores (gpus : list GPUInfo.t) (R : Requirements.t)
    (e : PolicyEngine.t) (p : GPUInfo.t * float) :
  In p (result (get_recommended_gpus_loop gpus R [] e)) ->
  p.2 = _score_gpu p.1.
Proof.
  rewrite get_recommended_gpus_loop_run. unfold result. simpl.
  intros Hp. apply in_map_iff in Hp. destruct Hp as (g & <- & _). reflexivity.
Qed.

(** C4: the score is 1.0, plus 0.5 if online, plus 0.3 if memory_gb >= 16,
    plus 0.2 if temperature_c < 60, minus 0.3 if temperature_c > 80; the
    cool bonus and the hot penalty exclude each other and a temperature
    from 60 to 80 inclusive contributes nothing; a device that is online
    with memory 20 and temperature 85 scores 1.0 + 0.5 + 0.3 - 0.3 = 1.5;
    the score is determined by the three fields [online], [memory_gb] and
    [temperature_c] of the device, and the ranking pairs each device with
    that score whatever the registry and the requirements are. *)
Theorem score_gpu_formula (D : GPUInfo.t) :
  _score_gpu D = score_spec D
  /\ (Float.ltb (GPUInfo.temperature_c D) f_60 = true ->
      Float.gtb (GPUInfo.temperature_c D) f_80 = false)
  /\ (Float.geb (GPUInfo.temperature_c D) f_60 = true ->
      Float.leb (GPUInfo.temperature_c D) f_80 = true ->
      _score_gpu D =
        Float.add (Float.add f_1_0 (when (GPUInfo.online D) f_0_5))
                  (when (Float.geb (GPUInfo.memory_gb D) f_16) f_0_3))
  /\ (GPUInfo.online D = true -> GPUInfo.memory_gb D = f_20 ->
      GPUInfo.temperature_c D = f_85 ->
      _score_gpu D = Float.sub (Float.add (Float.add f_1_0 f_0_5) f_0_3) f_0_3
      /\ _score_gpu D = f_1_5)
  /\ (forall D' : GPUInfo.t,
        GPUInfo.online D' = GPUInfo.online D ->
        GPUInfo.memory_gb D' = GPUInfo.memory_gb D ->
        GPUInfo.temperature_c D' = GPUInfo.temperature_c D ->
        _score_gpu D' = _score_gpu D)
  /\ (forall (e : PolicyEngine.t) (R : Requirements.t)
             (gpus : list GPUInfo.t) (s : float),
        In (D, s) (result (get_recommended_gpus_loop gpus R [] e)) ->
        s = _score_gpu D).
Proof.
  split; [apply score_eq_spec |].
  split; [apply cool_not_hot |].
  split.
  { intros Hge Hle.
    apply FloatFacts.leb_true_ltb_false in Hge, Hle.
    unfold _score_gpu. unfold Float.gtb. fold (Float.ltb f_80 (GPUInfo.temperature_c D)).
    rewrite Hge, Hle.
    destruct (GPUInfo.online D), (Float.geb (GPUInfo.memory_gb D) f_16);
      vm_compute; reflexivity. }
  split.
  { intros Ho Hm Ht. unfold _score_gpu. rewrite Ho, Hm, Ht.
    vm_compute. split; reflexivity. }
  split.
  { intros D' Ho Hm Ht. unfold _score_gpu. rewrite Ho, Hm, Ht. reflexivity. }
  intros e R gpus s Hin. apply (loop_scores gpus R e (D, s) Hin).
Qed.

(** The worked example of the specification: online, 20 GB, 85 degrees. *)
Lemma score_gpu_formula_witness :
  _score_gpu (scenario_device 0 20 85 true) = f_1_5.
Proof.
  destruct (score_gpu_formula (scenario_device 0 20 85 true))
    as (_ & _ & _ & H & _).
  exact (proj2 (H eq_refl eq_refl eq_refl)).
Defined.

Lemma ltb_16_negb_geb (m : float) :
  Float.is_nan m = false -> Float.ltb m f_16 = negb (Float.geb m f_16).
Proof.
  intros Hm.
  pose proof (FloatFacts.ltb_false_geb m f_16 Hm eq_refl) as H.
  destruct (Float.ltb m f_16), (Float.geb m f_16); try reflexivity.
  - destruct H as [_ H]. specialize (H eq_refl). discriminate.
  - destruct H as [H _]. specialize (H eq_refl). discriminate.
Qed.



End Score.

(** ** Pool admission *)

Section Matching.
Import PolicyEngine.

(** A name listed exactly is also found by the partial match, so the two
    nested tests of the source amount to the partial match alone. *)
Lemma exact_is_partial (types : list string) (name : string) :
  list_contains types name = true ->
  existsb (fun t => str_contains name t) types = true.
Proof.
  unfold list_contains. rewrite !existsb_exists.
  intros (t & Hin & Heq). apply String.eqb_eq in Heq. subst t.
  exists name. split; [exact Hin | apply str_contains_refl].
Qed.

Lemma matches_pool_split (D : GPUInfo.t) (P : GPUPool.t) :
  _matches_pool D P = accepts_name D P && accepts_rest D P.
Proof.
  unfold _matches_pool, accepts_name, accepts_rest.
  destruct (list_truthy (GPUPool.gpu_types P)); simpl.
  - destruct (list_contains (GPUPool.gpu_types P) (GPUInfo.name D)) eqn:Hex;
      simpl.
    + rewrite (exact_is_partial _ _ Hex). simpl.
      destruct (Float.ltb _ _), (Float.gtb _ _), (str_truthy _ && _);
        reflexivity.
    + destruct (existsb _ _); simpl; [| reflexivity].
      destruct (Float.ltb _ _), (Float.gtb _ _), (str_truthy _ && _);
        reflexivity.
  - destruct (Float.ltb _ _), (Float.gtb _ _), (str_truthy _ && _);
      reflexivity.
Qed.

Lemma accepts_name_spec (D : GPUInfo.t) (P : GPUPool.t) :
  accepts_name D P = true <->
  (GPUPool.gpu_types P <> [] ->
   exists t : string, In t (GPUPool.gpu_types P) /\ occurs_in t (GPUInfo.name D)).
Proof.
  unfold accepts_name. rewrite orb_true_iff, negb_true_iff, existsb_exists.
  split.
  - intros [Hempty | (t & Hin & Ht)] Hne.
    + apply list_truthy_spec in Hne. congruence.
    + exists t. split; [exact Hin | apply str_contains_spec, Ht].
  - intros H. destruct (GPUPool.gpu_types P) as [| t0 ts] eqn:E.
    + left. reflexivity.
    + right. destruct H as (t & Hin & Ht); [discriminate |].
      exists t. split; [exact Hin | apply str_contains_spec, Ht].
Qed.

Lemma pool_binding_spec (D : GPUInfo.t) (P : GPUPool.t) :
  negb (str_truthy (GPUInfo.pool D)
        && negb (String.eqb (GPUInfo.pool D) (GPUPool.name P))) = true <->
  (GPUInfo.pool D <> "" -> GPUInfo.pool D = GPUPool.name P).
Proof.
  destruct (String.eqb_spec (GPUInfo.pool D) (GPUPool.name P)) as [Heq | Hne].
  - rewrite andb_false_r. simpl. split; auto.
  - rewrite andb_true_r, negb_true_iff. split.
    + intros Hf Hp. apply str_truthy_spec in Hp. congruence.
    + intros H. destruct (str_truthy (GPUInfo.pool D)) eqn:E; [| reflexivity].
      apply str_truthy_spec in E. destruct (Hne (H E)).
Qed.

Lemma accepts_rest_spec (D : GPUInfo.t) (P : GPUPool.t) :
  accepts_rest D P = true <->
  Float.ltb (GPUInfo.memory_gb D) (GPUPool.min_memory_gb P) = false
  /\ Float.gtb (GPUInfo.temperature_c D) (GPUPool.max_temp_c P) = false
  /\ (GPUInfo.pool D <> "" -> GPUInfo.pool D = GPUPool.name P).
Proof.
  unfold accepts_rest.
  rewrite !andb_true_iff, !negb_true_iff, <- pool_binding_spec, negb_true_iff.
  tauto.
Qed.

(** C3 as stated fails: a pool whose memory floor is NaN admits a device
    with 8 GB, since [8.0 < nan] is false, although [8.0 >= nan] is false
    too. *)
Lemma nan_floor_is_passed :
  let D := GPUInfo.mk 0 "X" "GPU-0" (Float.of_Z 8) f_20 (Float.of_Z 10)
             true false "" [] in
  let P := GPUPool.mk "p" [] S754_nan f_80 "adaptive" (Float.lit 9 10) [] [] in
  _matches_pool D P = true
  /\ Float.geb (GPUInfo.memory_gb D) (GPUPool.min_memory_gb P) = false.
Proof. split; reflexivity. Qed.

(** C3, amended: [matches_pool D P] holds exactly when (1) a non-empty
    list of accepted name substrings has an element occurring in the
    device name, (2) memory_gb is not below min_memory_gb, (3)
    temperature_c is not above max_temp_c, and (4) a non-empty assigned
    pool equals the pool's name.  When the four compared floats are
    numbers, (2) and (3) are memory_gb >= min_memory_gb and
    temperature_c <= max_temp_c; equal memory and equal temperature pass
    (2) and (3). *)
Theorem matches_pool_criteria (D : GPUInfo.t) (P : GPUPool.t) :
  (_matches_pool D P = true <->
   (GPUPool.gpu_types P <> [] ->
    exists t : string,
      In t (GPUPool.gpu_types P) /\ occurs_in t (GPUInfo.name D))
   /\ Float.ltb (GPUInfo.memory_gb D) (GPUPool.min_memory_gb P) = false
   /\ Float.gtb (GPUInfo.temperature_c D) (GPUPool.max_temp_c P) = false
   /\ (GPUInfo.pool D <> "" -> GPUInfo.pool D = GPUPool.name P))
  /\ (Float.is_nan (GPUInfo.memory_gb D) = false ->
      Float.is_nan (GPUPool.min_memory_gb P) = false ->
      Float.is_nan (GPUInfo.temperature_c D) = false ->
      Float.is_nan (GPUPool.max_temp_c P) = false ->
      (_matches_pool D P = true <->
       (GPUPool.gpu_types P <> [] ->
        exists t : string,
          In t (GPUPool.gpu_types P) /\ occurs_in t (GPUInfo.name D))
       /\ Float.geb (GPUInfo.memory_gb D) (GPUPool.min_memory_gb P) = true
       /\ Float.leb (GPUInfo.temperature_c D) (GPUPool.max_temp_c P) = true
       /\ (GPUInfo.pool D <> "" -> GPUInfo.pool D = GPUPool.name P)))
  /\ (Float.eqb (GPUInfo.memory_gb D) (GPUPool.min_memory_gb P) = true ->
      Float.ltb (GPUInfo.memory_gb D) (GPUPool.min_memory_gb P) = false)
  /\ (Float.eqb (GPUInfo.temperature_c D) (GPUPool.max_temp_c P) = true ->
      Float.gtb (GPUInfo.temperature_c D) (GPUPool.max_temp_c P) = false).
Proof.
  assert (_matches_pool D P = true <->
          (GPUPool.gpu_types P <> [] ->
           exists t : string,
             In t (GPUPool.gpu_types P) /\ occurs_in t (GPUInfo.name D))
          /\ Float.ltb (GPUInfo.memory_gb D) (GPUPool.min_memory_gb P) = false
          /\ Float.gtb (GPUInfo.temperature_c D) (GPUPool.max_temp_c P) = false
          /\ (GPUInfo.pool D <> "" -> GPUInfo.pool D = GPUPool.name P)) as Hiff.
  { rewrite matches_pool_split, andb_true_iff, accepts_name_spec,
      accepts_rest_spec. tauto. }
  split; [exact Hiff |]. split; [| split].
  - intros Hm Hmin Ht Hmax. rewrite Hiff.
    rewrite (FloatFacts.ltb_false_geb _ _ Hm Hmin).
    rewrite (FloatFacts.gtb_false_leb _ _ Ht Hmax).
    tauto.
  - intros E. apply FloatFacts.leb_true_ltb_false.
    exact (proj2 (FloatFacts.eqb_leb _ _ E)).
  - intros E. apply (FloatFacts.leb_true_ltb_false _ _).
    exact (proj1 (FloatFacts.eqb_leb _ _ E)).
Qed.

(** A device at exactly the pool's memory floor and temperature ceiling,
    with a name that contains (without being) the listed substring. *)
Lemma matches_pool_criteria_witness :
  let D := GPUInfo.mk 0 "NVIDIA A100" "GPU-0" f_16 f_80 (Float.of_Z 10)
             true false "" [] in
  let P := GPUPool.mk "high-mem" ["A100"] f_16 f_80 "adaptive"
             (Float.lit 9 10) [] [] in
  Float.is_nan (GPUInfo.memory_gb D) = false
  /\ Float.is_nan (GPUPool.min_memory_gb P) = false
  /\ Float.is_nan (GPUInfo.temperature_c D) = false
  /\ Float.is_nan (GPUPool.max_temp_c P) = false
  /\ _matches_pool D P = true.
Proof.
  intros D P. repeat (split; [reflexivity |]).
  apply (proj1 (proj2 (matches_pool_criteria D P))
           eq_refl eq_refl eq_refl eq_refl).
  split; [| split; [| split]].
  - intros _. exists "A100". split; [left; reflexivity |].
    exists "NVIDIA ", "". reflexivity.
  - reflexivity.
  - reflexivity.
  - intros H. destruct H. reflexivity.
Defined.

(** C8 as stated fails: a device whose name contains "A100" but whose
    memory is below the pool's floor is still rejected after "A100" is
    added to the pool's non-empty list. *)
Lemma adding_substring_does_not_flip :
  let D := GPUInfo.mk 0 "NVIDIA A100" "GPU-0" (Float.of_Z 8) f_20
             (Float.of_Z 10) true false "" [] in
  let P := GPUPool.mk "high-mem" ["H100"] f_16 f_80 "adaptive"
             (Float.lit 9 10) [] [] in
  GPUPool.gpu_types P <> []
  /\ occurs_in "A100" (GPUInfo.name D)
  /\ _matches_pool D P = false
  /\ _matches_pool D
       (GPUPool.with_gpu_types (GPUPool.gpu_types P ++ ["A100"]) P) = false.
Proof.
  simpl. split; [discriminate |].
  split; [exists "NVIDIA ", ""; reflexivity |].
  split; vm_compute; reflexivity.
Qed.

(** C8, amended: with a non-empty list none of whose elements occurs in
    the device name the pool rejects the device; after a substring that
    occurs in the name is added anywhere in the list, the pool admits the
    device exactly when the memory, temperature and pool-binding checks
    pass. *)
Theorem matches_pool_name_monotone (D : GPUInfo.t) (P : GPUPool.t) :
  (GPUPool.gpu_types P <> [] ->
   (forall t : string, In t (GPUPool.gpu_types P) ->
                       ~ occurs_in t (GPUInfo.name D)) ->
   _matches_pool D P = false)
  /\ (forall (t : string) (pre post : list string),
        GPUPool.gpu_types P = pre ++ post ->
        occurs_in t (GPUInfo.name D) ->
        (_matches_pool D (GPUPool.with_gpu_types (pre ++ t :: post) P) = true
         <->
         Float.ltb (GPUInfo.memory_gb D) (GPUPool.min_memory_gb P) = false
         /\ Float.gtb (GPUInfo.temperature_c D) (GPUPool.max_temp_c P) = false
         /\ (GPUInfo.pool D <> "" -> GPUInfo.pool D = GPUPool.name P))).
Proof.
  split.
  - intros Hne Hnone. rewrite matches_pool_split.
    destruct (accepts_name D P) eqn:E; [| reflexivity].
    destruct (proj1 (accepts_name_spec D P) E Hne) as (t & Hin & Ht).
    destruct (Hnone t Hin Ht).
  - intros t pre post _ Ht.
    rewrite matches_pool_split, andb_true_iff, accepts_rest_spec.
    assert (accepts_name D (GPUPool.with_gpu_types (pre ++ t :: post) P) = true)
      as ->.
    { apply accepts_name_spec. intros _. exists t. split; [| exact Ht].
      simpl. apply in_or_app. right. left. reflexivity. }
    simpl. tauto.
Qed.

(** A device rejected for its name alone is admitted once a substring of
    its name is listed. *)
Lemma matches_pool_name_monotone_witness :
  let D := GPUInfo.mk 0 "NVIDIA A100" "GPU-0" f_20 f_20 (Float.of_Z 10)
             true false "" [] in
  let P := GPUPool.mk "high-mem" ["H100"] f_16 f_80 "adaptive"
             (Float.lit 9 10) [] [] in
  _matches_pool D P = false
  /\ _matches_pool D (GPUPool.with_gpu_types (["H100"] ++ "A100" :: []) P)
     = true.
Proof.
  intros D P.
  destruct (matches_pool_name_monotone D P) as [Hnone Hadd]. split.
  - apply Hnone; [discriminate |].
    intros t [<- | []] Hocc. apply str_contains_spec in Hocc.
    vm_compute in Hocc. discriminate.
  - apply (Hadd "A100" ["H100"] []); [reflexivity | |].
    + exists "NVIDIA ", "". reflexivity.
    + split; [reflexivity |]. split; [reflexivity |].
      intros H. destruct H. reflexivity.
Defined.

End Matching.

(** ** Requirements and evaluation *)

Section Evaluation.
Import PolicyEngine.

Lemma tags_subset_spec (required available : list string) :
  bool_decide ((list_to_set required : gset string) ⊆ list_to_set available)
  = true
  <-> (forall x : string, In x required -> In x available).
Proof.
  rewrite bool_decide_eq_true, elem_of_subseteq.
  setoid_rewrite elem_of_list_to_set. setoid_rewrite list_elem_of_In.
  reflexivity.
Qed.

(** The three early returns of [_meets_requirements], one per key. *)
Lemma meets_requirements_split (D : GPUInfo.t) (R : Requirements.t) :
  _meets_requirements D R
  = match Requirements.min_memory R with
    | Some m => negb (Float.ltb (GPUInfo.memory_gb D) m)
    | None => true
    end
    && match Requirements.max_temp R with
       | Some t => negb (Float.gtb (GPUInfo.temperature_c D) t)
       | None => true
       end
    && match Requirements.tags R with
       | Some ts =>
           bool_decide ((list_to_set ts : gset string)
                        ⊆ list_to_set (GPUInfo.tags D))
       | None => true
       end.
Proof.
  unfold _meets_requirements.
  destruct (Requirements.min_memory R) as [m |];
    [destruct (Float.ltb (GPUInfo.memory_gb D) m) |];
    destruct (Requirements.max_temp R) as [t |];
    try destruct (Float.gtb (GPUInfo.temperature_c D) t);
    destruct (Requirements.tags R) as [ts |];
    try destruct (bool_decide _); reflexivity.
Qed.

Lemma meets_requirements_checks (D : GPUInfo.t) (R : Requirements.t) :
  _meets_requirements D R = true <->
  (forall m : float, Requirements.min_memory R = Some m ->
                     Float.ltb (GPUInfo.memory_gb D) m = false)
  /\ (forall t : float, Requirements.max_temp R = Some t ->
                        Float.gtb (GPUInfo.temperature_c D) t = false)
  /\ (forall ts : list string, Requirements.tags R = Some ts ->
        forall x : string, In x ts -> In x (GPUInfo.tags D)).
Proof.
  rewrite meets_requirements_split, !andb_true_iff.
  assert (forall (o : option float) (f : float -> bool),
             match o with Some v => negb (f v) | None => true end = true
             <-> (forall v, o = Some v -> f v = false)) as Hopt.
  { intros [v |] f.
    - rewrite negb_true_iff. split; [intros H ? [= <-]; exact H | auto].
    - split; [intros _ ? [=] | reflexivity]. }
  rewrite !Hopt.
  assert (match Requirements.tags R with
          | Some ts =>
              bool_decide ((list_to_set ts : gset string)
                           ⊆ list_to_set (GPUInfo.tags D))
          | None => true
          end = true
          <-> (forall ts : list string, Requirements.tags R = Some ts ->
                 forall x : string, In x ts -> In x (GPUInfo.tags D))) as ->.
  { destruct (Requirements.tags R) as [ts |].
    - rewrite tags_subset_spec.
      split; [intros H ? [= <-]; exact H | intros H; exact (H ts eq_refl)].
    - split; [intros _ ? [=] | reflexivity]. }
  tauto.
Qed.

(** C5 as stated fails: a request whose 'min_memory' is NaN is met by a
    device with 8 GB, since [8.0 < nan] is false, although [8.0 >= nan]
    is false too. *)
Lemma nan_min_memory_is_met :
  let D := GPUInfo.mk 0 "X" "GPU-0" (Float.of_Z 8) f_20 (Float.of_Z 10)
             true false "" [] in
  let R := Requirements.mk (Some S754_nan) None None ∅ in
  _meets_requirements D R = true
  /\ Requirements.min_memory R = Some S754_nan
  /\ Float.geb (GPUInfo.memory_gb D) S754_nan = false.
Proof. repeat split. Qed.

(** C5, amended: [meets_requirements D R] holds exactly when memory_gb is
    not below the value under 'min_memory' if that key is present,
    temperature_c is not above the value under 'max_temp' if present, and
    the set under 'tags', if present, is included in the device's tags.
    When the compared floats are numbers these are memory_gb >= the value
    and temperature_c <= the value.  The other keys of the mapping never
    affect the result, and the empty mapping is met by every device. *)
Theorem meets_requirements_criteria (D : GPUInfo.t) (R : Requirements.t) :
  (_meets_requirements D R = true <->
   (forall m : float, Requirements.min_memory R = Some m ->
                      Float.ltb (GPUInfo.memory_gb D) m = false)
   /\ (forall t : float, Requirements.max_temp R = Some t ->
                         Float.gtb (GPUInfo.temperature_c D) t = false)
   /\ (forall ts : list string, Requirements.tags R = Some ts ->
         forall x : string, In x ts -> In x (GPUInfo.tags D)))
  /\ (Float.is_nan (GPUInfo.memory_gb D) = false ->
      Float.is_nan (GPUInfo.temperature_c D) = false ->
      (forall m : float, Requirements.min_memory R = Some m ->
                         Float.is_nan m = false) ->
      (forall t : float, Requirements.max_temp R = Some t ->
                         Float.is_nan t = false) ->
      (_meets_requirements D R = true <->
       (forall m : float, Requirements.min_memory R = Some m ->
                          Float.geb (GPUInfo.memory_gb D) m = true)
       /\ (forall t : float, Requirements.max_temp R = Some t ->
                             Float.leb (GPUInfo.temperature_c D) t = true)
       /\ (forall ts : list string, Requirements.tags R = Some ts ->
             forall x : string, In x ts -> In x (GPUInfo.tags D))))
  /\ (forall o : gmap string PyAny,
        _meets_requirements D (Requirements.with_other o R)
        = _meets_requirements D R)
  /\ _meets_requirements D Requirements.empty = true.
Proof.
  split; [apply meets_requirements_checks |].
  split; [| split; [reflexivity | reflexivity]].
  intros Hm Ht Hmin Hmax. rewrite meets_requirements_checks.
  split; intros (H1 & H2 & H3); (split; [| split; [| exact H3]]).
  - intros m E. apply FloatFacts.ltb_false_geb; auto.
  - intros t E. apply FloatFacts.gtb_false_leb; auto.
  - intros m E. apply FloatFacts.ltb_false_geb; auto.
  - intros t E. apply FloatFacts.gtb_false_leb; auto.
Qed.

(** A request for 16 GB, at most 80 degrees and the tag "hpc", met at the
    boundary by a device with exactly 16 GB at exactly 80 degrees. *)
Lemma meets_requirements_criteria_witness :
  let D := GPUInfo.mk 0 "NVIDIA A100" "GPU-0" f_16 f_80 (Float.of_Z 10)
             true false "" ["hpc"; "fp64"] in
  let R := Requirements.mk (Some f_16) (Some f_80) (Some ["hpc"])
             {[ "priority" := PyInt 3 ]} in
  _meets_requirements D R = true.
Proof.
  apply (proj1 (proj2 (meets_requirements_criteria
           (GPUInfo.mk 0 "NVIDIA A100" "GPU-0" f_16 f_80 (Float.of_Z 10)
              true false "" ["hpc"; "fp64"])
           (Requirements.mk (Some f_16) (Some f_80) (Some ["hpc"])
              {[ "priority" := PyInt 3 ]})))).
  - reflexivity.
  - reflexivity.
  - intros m [= <-]. reflexivity.
  - intros t [= <-]. reflexivity.
  - split; [| split].
    + intros m [= <-]. reflexivity.
    + intros t [= <-]. reflexivity.
    + intros ts [= <-] x [<- | []]. left. reflexivity.
Defined.

Lemma evaluate_allocation_loop_spec (D : GPUInfo.t) (R : Requirements.t)
    (pools : list GPUPool.t) :
  evaluate_allocation_loop D R pools = true <->
  exists p : GPUPool.t,
    In p pools /\ _matches_pool D p = true /\ _meets_requirements D R = true.
Proof.
  induction pools as [| p pools IH]; simpl.
  - split; [discriminate | intros (p & [] & _)].
  - destruct (_matches_pool D p && _meets_requirements D R) eqn:E.
    + apply andb_true_iff in E. split; [| reflexivity].
      intros _. exists p. split; [left; reflexivity | exact E].
    + rewrite IH. split.
      * intros (q & Hin & Hq). exists q. split; [right; exact Hin | exact Hq].
      * intros (q & [<- | Hin] & Hm & Hr).
        -- rewrite Hm, Hr in E. discriminate.
        -- exists q. auto.
Qed.

(** C2: [evaluate_allocation] answers true exactly when some registered
    pool matches the device and the device meets the requirements; with
    no pool registered, and so on a fresh engine, it answers false. *)
Theorem evaluate_allocation_iff (e : PolicyEngine.t) (D : GPUInfo.t)
    (R : Requirements.t) :
  (result (evaluate_allocation D R e) = true <->
   exists p : GPUPool.t,
     In p (result (on_gpu_ops GPUOpsModule.get_all_pools e))
     /\ _matches_pool D p = true /\ _meets_requirements D R = true)
  /\ (result (on_gpu_ops GPUOpsModule.get_all_pools e) = [] ->
      result (evaluate_allocation D R e) = false)
  /\ (forall dir : option string,
        result (evaluate_allocation D R (PolicyEngine.__init__ dir)) = false).
Proof.
  rewrite evaluate_allocation_run.
  change (result (on_gpu_ops GPUOpsModule.get_all_pools e))
    with (registered_pools e).
  unfold result at 1 3. simpl.
  split; [apply evaluate_allocation_loop_spec |].
  split; [intros ->; reflexivity | reflexivity].
Qed.

(** Scenario A of the specification, through the pool that admits it. *)
Lemma evaluate_allocation_iff_witness :
  result (evaluate_allocation (scenario_device 0 24 35 true)
            scenario_requirements scenario_engine) = true.
Proof.
  apply (proj1 (evaluate_allocation_iff scenario_engine
                  (scenario_device 0 24 35 true) scenario_requirements)).
  exists scenario_pool. split; [left; reflexivity |].
  split; reflexivity.
Defined.

End Evaluation.

(** ** Sorting by a float key *)

Section SortFacts.
Context {A : Type}.
Variable key : A -> float.
Hypothesis key_not_nan : forall a : A, Float.is_nan (key a) = false.

#[local] Abbreviation asc := (asc_by key).
#[local] Abbreviation with_key := (with_key_by key).

Lemma sort_insert_perm (x : A) (l : list A) :
  Permutation (sort_insert key x l) (x :: l).
Proof.
  induction l as [| y l IH]; simpl.
  - apply Permutation_refl.
  - destruct (Float.ltb (key y) (key x)).
    + apply perm_trans with (y :: x :: l);
        [apply perm_skip, IH | apply perm_swap].
    + apply Permutation_refl.
Qed.

Lemma sort_asc_perm (l : list A) : Permutation (sort_asc key l) l.
Proof.
  induction l as [| x l IH]; simpl.
  - apply perm_nil.
  - apply perm_trans with (x :: sort_asc key l);
      [apply sort_insert_perm | apply perm_skip, IH].
Qed.

Lemma sort_insert_sorted (x : A) (l : list A) :
  StronglySorted asc l -> StronglySorted asc (sort_insert key x l).
Proof.
  induction l as [| y l IH]; simpl; intros Hs.
  - constructor; constructor.
  - apply StronglySorted_inv in Hs. destruct Hs as [Hl Hy].
    destruct (Float.ltb (key y) (key x)) eqn:E.
    + constructor; [apply IH, Hl |].
      apply (Permutation_Forall (Permutation_sym (sort_insert_perm x l))).
      constructor; [| exact Hy].
      unfold asc_by. apply FloatFacts.ltb_asym, E.
    + constructor; [constructor; assumption |].
      constructor; [exact E |].
      apply Forall_forall. intros z Hz.
      pose proof (proj1 (Forall_forall _ _) Hy z Hz) as Hyz.
      unfold asc_by in *.
      apply (FloatFacts.ltb_false_trans _ (key y) _ (key_not_nan y) Hyz E).
Qed.

Lemma sort_asc_sorted (l : list A) : StronglySorted asc (sort_asc key l).
Proof.
  induction l as [| x l IH]; simpl.
  - constructor.
  - apply sort_insert_sorted, IH.
Qed.

Lemma sort_insert_stable (s : float) (x : A) (l : list A) :
  with_key s (sort_insert key x l) = with_key s (x :: l).
Proof.
  unfold with_key_by. induction l as [| y l IH]; simpl; [reflexivity |].
  destruct (Float.ltb (key y) (key x)) eqn:E; simpl; [| reflexivity].
  rewrite IH. simpl.
  destruct (Float.eqb (key x) s) eqn:Ex; [| reflexivity].
  rewrite (FloatFacts.ltb_eqb_false _ _ _ E Ex). reflexivity.
Qed.

Lemma sort_asc_stable (s : float) (l : list A) :
  with_key s (sort_asc key l) = with_key s l.
Proof.
  induction l as [| x l IH]; simpl; [reflexivity |].
  rewrite sort_insert_stable. unfold with_key_by in *. simpl. rewrite IH.
  reflexivity.
Qed.

Lemma StronglySorted_rev (R : A -> A -> Prop) (l : list A) :
  StronglySorted R l -> StronglySorted (fun a b => R b a) (rev l).
Proof.
  induction 1 as [| a l Hs IH Ha]; simpl; [constructor |].
  apply StronglySorted_app_2; [| exact IH | repeat constructor].
  intros x1 x2 H1 H2. apply list_elem_of_In in H1, H2.
  destruct H2 as [<- | []]. apply in_rev in H1.
  apply (proj1 (List.Forall_forall _ _) Ha x1 H1).
Qed.

(** [list.sort(key=key, reverse=True)] permutes the list, leaves the keys
    in non-increasing order, and keeps elements of equal key in their
    original order. *)
Lemma list_sort_reverse_perm (l : list A) :
  Permutation (list_sort key true l) l.
Proof.
  unfold list_sort.
  apply perm_trans with (sort_asc key (rev l));
    [apply Permutation_sym, Permutation_rev |].
  apply perm_trans with (rev l);
    [apply sort_asc_perm | apply Permutation_sym, Permutation_rev].
Qed.

Lemma list_sort_reverse_sorted (l : list A) :
  StronglySorted (fun a b => Float.geb (key a) (key b) = true)
                 (list_sort key true l).
Proof.
  unfold list_sort.
  pose proof (StronglySorted_rev _ _ (sort_asc_sorted (rev l))) as H.
  induction H as [| a l' Hs IH Ha]; constructor; [exact IH |].
  apply Forall_forall. intros b Hb.
  pose proof (proj1 (Forall_forall _ _) Ha b Hb) as Hab. unfold asc_by in Hab.
  apply FloatFacts.ltb_false_geb; [apply key_not_nan .. | exact Hab].
Qed.

Lemma list_sort_reverse_stable (s : float) (l : list A) :
  with_key s (list_sort key true l) = with_key s l.
Proof.
  unfold list_sort, with_key_by.
  rewrite List.filter_rev. fold (with_key s (sort_asc key (rev l))).
  rewrite sort_asc_stable. unfold with_key_by.
  rewrite List.filter_rev, rev_involutive. reflexivity.
Qed.

End SortFacts.

(** ** Recommendation *)

Section Recommendation.
Import PolicyEngine.

(** Sorting decorated elements by the decoration is sorting the elements
    by the function that decorates them. *)
Lemma sort_insert_decorated {A : Type} (key : A -> float) (x : A) (l : list A) :
  sort_insert snd (x, key x) (map (fun a => (a, key a)) l)
  = map (fun a => (a, key a)) (sort_insert key x l).
Proof.
  induction l as [| y l IH]; simpl; [reflexivity |].
  destruct (Float.ltb (key y) (key x)); simpl; [rewrite IH |]; reflexivity.
Qed.

Lemma sort_asc_decorated {A : Type} (key : A -> float) (l : list A) :
  sort_asc snd (map (fun a => (a, key a)) l)
  = map (fun a => (a, key a)) (sort_asc key l).
Proof.
  induction l as [| x l IH]; simpl; [reflexivity |].
  rewrite IH. apply sort_insert_decorated.
Qed.

Lemma list_sort_decorated {A : Type} (key : A -> float) (reverse : bool)
    (l : list A) :
  map fst (list_sort snd reverse (map (fun a => (a, key a)) l))
  = list_sort key reverse l.
Proof.
  assert (forall l' : list A, map fst (map (fun a => (a, key a)) l') = l')
    as Hfst.
  { intros l'. rewrite map_map. simpl. apply map_id. }
  unfold list_sort. destruct reverse.
  - rewrite <- map_rev, sort_asc_decorated, <- map_rev. apply Hfst.
  - rewrite sort_asc_decorated. apply Hfst.
Qed.

(** The ranking is the stable descending sort, by score, of the devices
    that pass evaluation; the engine is left as it was and nothing is
    printed. *)
Lemma get_recommended_gpus_sort (gpus : list GPUInfo.t) (R : Requirements.t)
    (e : PolicyEngine.t) :
  get_recommended_gpus gpus R e
  = (list_sort _score_gpu true (List.filter (evaluate e R) gpus), e, []).
Proof.
  rewrite get_recommended_gpus_run, list_sort_decorated. reflexivity.
Qed.

(** C1: [get_recommended_gpus] returns exactly the devices of the input
    for which [evaluate_allocation] answers true (each as often as it
    passes), ordered by non-increasing score, devices of equal score
    standing in the order they have in the input. *)
Theorem get_recommended_gpus_ranked (e : PolicyEngine.t)
    (gpus : list GPUInfo.t) (R : Requirements.t) :
  let passes := fun g => result (evaluate_allocation g R e) in
  let out := result (get_recommended_gpus gpus R e) in
  Permutation out (List.filter passes gpus)
  /\ (forall g : GPUInfo.t, In g out <-> In g gpus /\ passes g = true)
  /\ StronglySorted
       (fun a b => Float.geb (_score_gpu a) (_score_gpu b) = true) out
  /\ (forall s : float,
        List.filter (fun g => Float.eqb (_score_gpu g) s) out
        = List.filter (fun g => Float.eqb (_score_gpu g) s)
            (List.filter passes gpus)).
Proof.
  intros passes out. unfold out. rewrite get_recommended_gpus_sort.
  unfold result. simpl. fold (evaluate e R).
  change passes with (evaluate e R).
  pose proof (list_sort_reverse_perm _score_gpu
                (List.filter (evaluate e R) gpus)) as Hperm.
  split; [exact Hperm |].
  split.
  { intros g. rewrite <- filter_In. split; intros H.
    - apply (Permutation_in _ Hperm H).
    - apply (Permutation_in _ (Permutation_sym Hperm) H). }
  split.
  - apply list_sort_reverse_sorted, score_not_nan.
  - intros s. apply (list_sort_reverse_stable _score_gpu).
Qed.

End Recommendation.


(** ** Dicts and the registry *)

Section DictFacts.
Context {V : Type}.

Lemma get_setitem_eq (k : string) (v : V) (d : Dict.t V) :
  Dict.get k (Dict.setitem k v d) = Some v.
Proof.
  induction d as [| [k' v'] d IH]; simpl.
  - rewrite String.eqb_refl. reflexivity.
  - destruct (String.eqb k' k) eqn:E; simpl; rewrite E; [reflexivity | exact IH].
Qed.

Lemma get_setitem_ne (k k' : string) (v : V) (d : Dict.t V) :
  k <> k' -> Dict.get k' (Dict.setitem k v d) = Dict.get k' d.
Proof.
  intros Hne. induction d as [| [k0 v0] d IH]; simpl.
  - destruct (String.eqb_spec k k'); [contradiction | reflexivity].
  - destruct (String.eqb_spec k0 k) as [-> | Hk]; simpl.
    + destruct (String.eqb_spec k k'); [contradiction | reflexivity].
    + rewrite IH. reflexivity.
Qed.

Lemma get_None_keys (k : string) (d : Dict.t V) :
  Dict.get k d = None <-> ~ In k (Dict.keys d).
Proof.
  induction d as [| [k' v'] d IH]; simpl.
  - split; [intros _ [] | reflexivity].
  - destruct (String.eqb_spec k' k) as [-> | Hk].
    + split; [discriminate | intros H; destruct H; left; reflexivity].
    + rewrite IH. split; [intros H [E | H']; auto | intros H H'; auto].
Qed.

(** Assignment to an absent key appends the entry. *)
Lemma setitem_absent (k : string) (v : V) (d : Dict.t V) :
  Dict.get k d = None -> Dict.setitem k v d = d ++ [(k, v)].
Proof.
  induction d as [| [k' v'] d IH]; simpl; [reflexivity |].
  destruct (String.eqb k' k); [discriminate |].
  intros H. rewrite (IH H). reflexivity.
Qed.

(** Assignment to a present key replaces the value where the key stands. *)
Lemma setitem_present (k : string) (v old : V) (d : Dict.t V) :
  Dict.get k d = Some old ->
  exists pre post : Dict.t V,
    d = pre ++ (k, old) :: post
    /\ Dict.setitem k v d = pre ++ (k, v) :: post.
Proof.
  induction d as [| [k' v'] d IH]; simpl; [discriminate |].
  destruct (String.eqb_spec k' k) as [-> | Hk].
  - intros [= ->]. exists [], d. split; reflexivity.
  - intros H. destruct (IH H) as (pre & post & -> & ->).
    exists ((k', v') :: pre), post. split; reflexivity.
Qed.

Lemma keys_setitem (k : string) (v : V) (d : Dict.t V) :
  Dict.keys (Dict.setitem k v d)
  = if list_contains (Dict.keys d) k then Dict.keys d else Dict.keys d ++ [k].
Proof.
  unfold list_contains. induction d as [| [k' v'] d IH]; simpl; [reflexivity |].
  rewrite (String.eqb_sym k k').
  destruct (String.eqb k' k); simpl; [reflexivity |].
  rewrite IH. destruct (existsb (String.eqb k) (Dict.keys d)); reflexivity.
Qed.

Lemma list_contains_spec (l : list string) (x : string) :
  list_contains l x = true <-> In x l.
Proof.
  unfold list_contains. rewrite existsb_exists. split.
  - intros (y & Hin & E). apply String.eqb_eq in E. subst y. exact Hin.
  - intros H. exists x. split; [exact H | apply String.eqb_refl].
Qed.

Lemma keys_setitem_NoDup (k : string) (v : V) (d : Dict.t V) :
  List.NoDup (Dict.keys d) -> List.NoDup (Dict.keys (Dict.setitem k v d)).
Proof.
  intros H. rewrite keys_setitem.
  destruct (list_contains (Dict.keys d) k) eqn:E; [exact H |].
  apply List.NoDup_app; [exact H | repeat constructor; intros [] |].
  intros x Hx [<- | []].
  apply list_contains_spec in Hx. congruence.
Qed.

Variable name : V -> string.

#[local] Abbreviation keyed_by_name := (keyed_by name).

Lemma keyed_by_name_setitem (v : V) (d : Dict.t V) :
  keyed_by_name d -> keyed_by_name (Dict.setitem (name v) v d).
Proof.
  unfold keyed_by. induction d as [| [k' v'] d IH]; simpl; intros H k u.
  - intros [[= <- <-] | []]. reflexivity.
  - destruct (String.eqb_spec k' (name v)) as [-> | Hk].
    + intros [[= <- <-] | Hin]; [reflexivity | apply H; right; exact Hin].
    + intros [[= <- <-] | Hin]; [apply H; left; reflexivity |].
      apply IH; [intros k0 v0 H0; apply H; right; exact H0 | exact Hin].
Qed.

Lemma keyed_by_name_values (d : Dict.t V) :
  keyed_by_name d -> map name (Dict.values d) = Dict.keys d.
Proof.
  unfold keyed_by, Dict.values, Dict.keys.
  induction d as [| [k v] d IH]; simpl; intros H; [reflexivity |].
  rewrite IH by (intros k0 v0 H0; apply H; right; exact H0).
  rewrite (H k v (or_introl eq_refl)). reflexivity.
Qed.

Lemma get_In (k : string) (v : V) (d : Dict.t V) :
  Dict.get k d = Some v -> In (k, v) d.
Proof.
  induction d as [| [k' v'] d IH]; simpl; [discriminate |].
  destruct (String.eqb_spec k' k) as [-> | Hk].
  - intros [= ->]. left. reflexivity.
  - intros H. right. apply IH, H.
Qed.

Lemma In_get (k : string) (v : V) (d : Dict.t V) :
  List.NoDup (Dict.keys d) -> In (k, v) d -> Dict.get k d = Some v.
Proof.
  induction d as [| [k' v'] d IH]; simpl; intros Hnd; [intros [] |].
  apply List.NoDup_cons_iff in Hnd. destruct Hnd as [Hk' Hnd].
  intros [[= -> ->] | Hin].
  - rewrite String.eqb_refl. reflexivity.
  - destruct (String.eqb_spec k' k) as [-> | Hk]; [| apply IH; assumption].
    destruct Hk'. apply (in_map fst) in Hin. exact Hin.
Qed.

(** What a dict built by registrations holds. *)
Lemma dict_after_snoc (l : list V) (v : V) :
  dict_after name (l ++ [v]) = Dict.setitem (name v) v (dict_after name l).
Proof. unfold dict_after. rewrite fold_left_app. reflexivity. Qed.

Lemma last_named_snoc (n : string) (l : list V) (v : V) :
  last_named name n (l ++ [v])
  = if String.eqb (name v) n then Some v else last_named name n l.
Proof. unfold last_named. rewrite fold_left_app. reflexivity. Qed.

Lemma first_names_snoc (l : list string) (n : string) :
  first_names (l ++ [n])
  = if list_contains (first_names l) n then first_names l
    else first_names l ++ [n].
Proof. unfold first_names. rewrite fold_left_app. reflexivity. Qed.

Lemma dict_after_get (n : string) (l : list V) :
  Dict.get n (dict_after name l) = last_named name n l.
Proof.
  induction l as [| v l IH] using rev_ind; [reflexivity |].
  rewrite dict_after_snoc, last_named_snoc.
  destruct (String.eqb_spec (name v) n) as [<- | Hne].
  - apply get_setitem_eq.
  - rewrite get_setitem_ne by exact Hne. exact IH.
Qed.

Lemma dict_after_keys (l : list V) :
  Dict.keys (dict_after name l) = first_names (map name l).
Proof.
  induction l as [| v l IH] using rev_ind; [reflexivity |].
  rewrite dict_after_snoc, keys_setitem, map_app. simpl.
  rewrite first_names_snoc, IH. reflexivity.
Qed.

Lemma dict_after_NoDup (l : list V) :
  List.NoDup (Dict.keys (dict_after name l)).
Proof.
  induction l as [| v l IH] using rev_ind; [constructor |].
  rewrite dict_after_snoc. apply keys_setitem_NoDup, IH.
Qed.

Lemma dict_after_keyed (l : list V) : keyed_by_name (dict_after name l).
Proof.
  induction l as [| v l IH] using rev_ind; [intros k v [] |].
  rewrite dict_after_snoc. apply keyed_by_name_setitem, IH.
Qed.

Lemma last_named_None (n : string) (l : list V) :
  (forall v : V, In v l -> name v <> n) -> last_named name n l = None.
Proof.
  induction l as [| v l IH] using rev_ind; intros H; [reflexivity |].
  rewrite last_named_snoc.
  destruct (String.eqb_spec (name v) n) as [E | _].
  - destruct (H v (in_or_app l [v] v (or_intror (in_eq v []))) E).
  - apply IH. intros u Hu. apply H, in_or_app. left. exact Hu.
Qed.

End DictFacts.

Section Registry.
Import GPUOpsModule.

Lemma final_bind {S A B : Type} (m : M S A) (k : A -> M S B) (s : S) :
  final (bind m k s) = final (k (result (m s)) (final (m s))).
Proof.
  unfold final, result, bind. destruct (m s) as [[a s1] o1]. simpl.
  destruct (k a s1) as [[b s2] o2]. reflexivity.
Qed.

Lemma run_calls_pools (cs : list call) :
  forall st : GPUOpsModule.t,
    pools (final (run_calls cs st))
    = fold_left (fun d v => Dict.setitem (GPUPool.name v) v d)
                (pools_of cs) (pools st).
Proof.
  induction cs as [| [p | s] cs IH]; intros st; simpl; [reflexivity | |];
    rewrite final_bind, IH; reflexivity.
Qed.

Lemma run_calls_schedules (cs : list call) :
  forall st : GPUOpsModule.t,
    schedules (final (run_calls cs st))
    = fold_left (fun d v => Dict.setitem (ScheduleRuleset.name v) v d)
                (schedules_of cs) (schedules st).
Proof.
  induction cs as [| [p | s] cs IH]; intros st; simpl; [reflexivity | |];
    rewrite final_bind, IH; reflexivity.
Qed.

Lemma registry_after_pools (cs : list call) :
  pools (registry_after cs) = dict_after GPUPool.name (pools_of cs).
Proof. apply run_calls_pools. Qed.

Lemma registry_after_schedules (cs : list call) :
  schedules (registry_after cs)
  = dict_after ScheduleRuleset.name (schedules_of cs).
Proof. apply run_calls_schedules. Qed.

(** C7: after any trace of registrations, pool names are unique in the
    registry; [get_pool] returns the pool most recently registered under
    the name, and nothing for a name never registered; [get_all_pools]
    lists the pools by first registration of their names, each name with
    its latest pool, so that registering a pool under a registered name
    puts it at the position of the pool it replaces and registering a new
    name appends; rulesets behave the same under [register_schedule] and
    [get_schedule]. *)
Theorem registry_last_write_wins (cs : list call) :
  let st := registry_after cs in
  let all_pools := fun s : GPUOpsModule.t => result (get_all_pools s) in
  let pool_named := fun n (s : GPUOpsModule.t) => result (get_pool n s) in
  let schedule_named :=
    fun n (s : GPUOpsModule.t) => result (get_schedule n s) in
  List.NoDup (map GPUPool.name (all_pools st))
  /\ (forall n : string,
        pool_named n st = last_named GPUPool.name n (pools_of cs))
  /\ (forall n : string,
        (forall p : GPUPool.t, In p (pools_of cs) -> GPUPool.name p <> n) ->
        pool_named n st = None)
  /\ map GPUPool.name (all_pools st)
     = first_names (map GPUPool.name (pools_of cs))
  /\ (forall p : GPUPool.t,
        In p (all_pools st) -> pool_named (GPUPool.name p) st = Some p)
  /\ (forall p : GPUPool.t,
        let st' := final (register_pool p st) in
        pool_named (GPUPool.name p) st' = Some p
        /\ match pool_named (GPUPool.name p) st with
           | Some old =>
               exists pre post : list GPUPool.t,
                 all_pools st = pre ++ old :: post
                 /\ all_pools st' = pre ++ p :: post
           | None => all_pools st' = all_pools st ++ [p]
           end)
  /\ List.NoDup (Dict.keys (schedules st))
  /\ (forall n : string,
        schedule_named n st
        = last_named ScheduleRuleset.name n (schedules_of cs))
  /\ (forall n : string,
        (forall s : ScheduleRuleset.t,
            In s (schedules_of cs) -> ScheduleRuleset.name s <> n) ->
        schedule_named n st = None)
  /\ (forall s : ScheduleRuleset.t,
        schedule_named (ScheduleRuleset.name s) (final (register_schedule s st))
        = Some s).
Proof.
  intros st all_pools pool_named schedule_named.
  unfold all_pools, pool_named, schedule_named, result, get_all_pools,
    get_pool, get_schedule, gets. simpl.
  unfold st. rewrite registry_after_pools, registry_after_schedules.
  set (ps := pools_of cs). set (ss := schedules_of cs).
  pose proof (dict_after_keyed GPUPool.name ps) as Hkeyed.
  pose proof (dict_after_NoDup GPUPool.name ps) as Hnd.
  repeat split.
  - rewrite (keyed_by_name_values _ _ Hkeyed). exact Hnd.
  - intros n. apply dict_after_get.
  - intros n Hn. rewrite dict_after_get. apply last_named_None, Hn.
  - rewrite (keyed_by_name_values _ _ Hkeyed). apply dict_after_keys.
  - intros p Hp. apply in_map_iff in Hp. destruct Hp as ([k v] & E & Hin).
    simpl in E. subst v. rewrite <- (Hkeyed k p Hin).
    apply In_get; assumption.
  - apply get_setitem_eq.
  - destruct (Dict.get (GPUPool.name p) (dict_after GPUPool.name ps))
      as [old |] eqn:E.
    + destruct (setitem_present _ p old _ E) as (pre & post & Hd & Hs).
      exists (Dict.values pre), (Dict.values post).
      rewrite Hs, Hd. unfold Dict.values. rewrite !map_app. split; reflexivity.
    + rewrite (setitem_absent _ p _ E). unfold Dict.values.
      rewrite map_app. reflexivity.
  - apply dict_after_NoDup.
  - intros n. apply dict_after_get.
  - intros n Hn. rewrite dict_after_get. apply last_named_None, Hn.
  - intros s. apply get_setitem_eq.
Qed.

(** Two pools named "a" registered around a pool named "b": the second
    "a" is the one found, at the head of the listing. *)
Lemma registry_last_write_wins_witness :
  let a1 := GPUPool.with_gpu_types ["A100"] scenario_pool in
  let a2 := GPUPool.with_gpu_types ["H100"] scenario_pool in
  let b := GPUPool.mk "b" [] Float.zero f_80 "adaptive" (Float.lit 9 10) [] [] in
  let st := registry_after [RegisterPool a1; RegisterPool b; RegisterPool a2] in
  result (get_pool "high-mem" st) = Some a2
  /\ result (get_pool "c" st) = None
  /\ map GPUPool.name (result (get_all_pools st)) = ["high-mem"; "b"].
Proof.
  intros a1 a2 b st.
  destruct (registry_last_write_wins
              [RegisterPool a1; RegisterPool b; RegisterPool a2])
    as (_ & Hget & Hnone & Hnames & _).
  split; [exact (Hget "high-mem") |].
  split; [| exact Hnames].
  apply Hnone. intros p [<- | [<- | [<- | []]]]; discriminate.
Defined.

End Registry.

(** ** Effects of the engine's methods *)

Section Effects.
Import PolicyEngine.

(** Registration does write: the pools dict afterwards is the assignment
    [pools[pool.name] = pool], and one line is printed. *)
Lemma register_pool_effect (pool : GPUPool.t) (st : GPUOpsModule.t) :
  GPUOpsModule.pools (final (GPUOpsModule.register_pool pool st))
  = Dict.setitem (GPUPool.name pool) pool (GPUOpsModule.pools st)
  /\ GPUOpsModule.schedules (final (GPUOpsModule.register_pool pool st))
     = GPUOpsModule.schedules st
  /\ stdout (GPUOpsModule.register_pool pool st)
     = ["[Policy] Registered pool: " +:+ GPUPool.name pool].
Proof. repeat split. Qed.

(** C9: [evaluate_allocation] and [get_recommended_gpus] leave the engine
    (and with it the registry's pools and schedules) exactly as it was and
    print nothing; the devices returned are devices that were supplied. *)
Theorem evaluation_is_read_only (e : PolicyEngine.t) (D : GPUInfo.t)
    (gpus : list GPUInfo.t) (R : Requirements.t) :
  final (evaluate_allocation D R e) = e
  /\ stdout (evaluate_allocation D R e) = []
  /\ final (get_recommended_gpus gpus R e) = e
  /\ stdout (get_recommended_gpus gpus R e) = []
  /\ GPUOpsModule.pools (gpu_ops (final (get_recommended_gpus gpus R e)))
     = GPUOpsModule.pools (gpu_ops e)
  /\ GPUOpsModule.schedules (gpu_ops (final (get_recommended_gpus gpus R e)))
     = GPUOpsModule.schedules (gpu_ops e)
  /\ (forall g : GPUInfo.t,
        In g (result (get_recommended_gpus gpus R e)) -> In g gpus).
Proof.
  rewrite evaluate_allocation_run, get_recommended_gpus_sort.
  unfold final, stdout, result. simpl.
  repeat split.
  intros g Hg.
  apply (Permutation_in _ (list_sort_reverse_perm _score_gpu _)) in Hg.
  apply filter_In in Hg. exact (proj1 Hg).
Qed.

End Effects.

(** ** Construction of data-model values *)

Section Construction.
Import PolicyEngine.




End Construction.

(** ** The end-to-end scenarios of the specification *)

Section Scenarios.
Import PolicyEngine.

#[local] Abbreviation engine := scenario_engine.
#[local] Abbreviation device := scenario_device.
#[local] Abbreviation min_memory_16 := scenario_requirements.

(** Scenario A: admitted, with score 2.0. *)
Example scenario_A :
  evaluate engine min_memory_16 (device 0 24 35 true) = true
  /\ _score_gpu (device 0 24 35 true) = f_2_0.
Proof. split; vm_compute; reflexivity. Qed.

(** Scenario B: 8 GB fails the pool's memory floor under any requirements. *)
Example scenario_B (R : Requirements.t) :
  evaluate engine R (device 0 8 35 true) = false.
Proof. reflexivity. Qed.

(** Scenario C: a hot device with enough memory scores 1.5. *)
Example scenario_C : _score_gpu (device 0 20 85 true) = f_1_5.
Proof. vm_compute. reflexivity. Qed.

(** Scenario D: two devices of equal score keep their input order, and
    both stand behind a device of higher score that came last. *)
Example scenario_D :
  result (get_recommended_gpus
            [device 1 24 70 true; device 2 32 65 true; device 3 24 35 true]
            Requirements.empty engine)
  = [device 3 24 35 true; device 1 24 70 true; device 2 32 65 true].
Proof. vm_compute. reflexivity. Qed.

End Scenarios.


(** ** The pattern of the placeholder parser *)

Section Pattern.

Lemma strip_literal_spec (p s r : string) :
  strip_literal p s = Some r <-> s = p +:+ r.
Proof.
  revert s. induction p as [| a p IH]; intros s; simpl.
  - split; [intros [= ->]; reflexivity | intros ->; reflexivity].
  - destruct s as [| b s]; [split; discriminate |].
    destruct (Ascii.eqb_spec a b) as [-> | Hab].
    + rewrite IH. split; [intros ->; reflexivity | intros [= ->]; reflexivity].
    + split; [discriminate | intros [= E _]; congruence].
Qed.

Lemma skip_spaces_length (s : string) :
  (String.length (skip_spaces s) <= String.length s)%nat.
Proof.
  induction s as [| c s IH]; simpl; [lia |].
  destruct (is_space_char c); simpl; lia.
Qed.

Lemma take_word_length (s : string) :
  String.length s
  = (String.length (take_word s).1 + String.length (take_word s).2)%nat.
Proof.
  induction s as [| c s IH]; simpl; [reflexivity |].
  destruct (is_word_char c); [| reflexivity].
  destruct (take_word s) as [w r]. simpl in *. lia.
Qed.

Lemma take_word_word (s : string) :
  str_forallb is_word_char (take_word s).1 = true.
Proof.
  induction s as [| c s IH]; simpl; [reflexivity |].
  destruct (is_word_char c) eqn:E; [| reflexivity].
  destruct (take_word s) as [w r]. simpl in *. rewrite E, IH. reflexivity.
Qed.

(** A match spans at least eight characters and its group is a
    non-empty run of word characters. *)
Lemma match_pool_name_inv (s w rest : string) :
  match_pool_name s = Some (w, rest) ->
  (String.length rest + String.length w + 7 <= String.length s)%nat
  /\ w <> "" /\ str_forallb is_word_char w = true
  /\ String.prefix "name" s = true.
Proof.
  unfold match_pool_name.
  destruct (strip_literal "name" s) as [s1 |] eqn:E1; [| discriminate].
  apply strip_literal_spec in E1.
  pose proof (skip_spaces_length s1) as L1.
  destruct (skip_spaces s1) as [| c s2]; [discriminate |].
  destruct (Ascii.eqb c "="); [| discriminate].
  pose proof (skip_spaces_length s2) as L2.
  destruct (skip_spaces s2) as [| q s3]; [discriminate |].
  destruct (is_quote_char q); [| discriminate].
  pose proof (take_word_length s3) as L3.
  pose proof (take_word_word s3) as W3.
  destruct (take_word s3) as [[| c0 w0] [| q' s4]]; try discriminate.
  destruct (is_quote_char q'); [| discriminate].
  intros [= <- <-]. simpl in *.
  split; [| split; [discriminate | split; [exact W3 |]]].
  - subst s.
    change (String.length ("name" +:+ s1))
      with (S (S (S (S (String.length s1))))).
    lia.
  - apply prefix_spec. exists s1. exact E1.
Qed.

(** More fuel than the text is long is enough fuel. *)
Lemma findall_pool_names_fuel_enough (n : nat) :
  forall (m : nat) (s : string),
    (String.length s < n)%nat -> (String.length s < m)%nat ->
    findall_pool_names_fuel n s = findall_pool_names_fuel m s.
Proof.
  induction n as [| n IH]; intros m s Hn Hm; [lia |].
  destruct m as [| m]; [lia |]. simpl.
  destruct (match_pool_name s) as [[w rest] |] eqn:E.
  - apply match_pool_name_inv in E. destruct E as (L & _).
    f_equal. apply IH; lia.
  - destruct s as [| c s]; [reflexivity |]. simpl in *. apply IH; lia.
Qed.

(** The scan, one step at a time. *)
Lemma findall_pool_names_step (s : string) :
  findall_pool_names s
  = match match_pool_name s with
    | Some (w, rest) => w :: findall_pool_names rest
    | None =>
        match s with
        | EmptyString => []
        | String _ s' => findall_pool_names s'
        end
    end.
Proof.
  unfold findall_pool_names at 1. simpl.
  destruct (match_pool_name s) as [[w rest] |] eqn:E.
  - apply match_pool_name_inv in E. destruct E as (L & _).
    f_equal. apply findall_pool_names_fuel_enough; lia.
  - destruct s as [| c s]; [reflexivity |].
    apply findall_pool_names_fuel_enough; simpl; lia.
Qed.

(** Induction along the scan. *)
Lemma findall_pool_names_ind (P : string -> list string -> Prop) :
  (P "" []) ->
  (forall s w rest,
      match_pool_name s = Some (w, rest) ->
      P rest (findall_pool_names rest) -> P s (w :: findall_pool_names rest)) ->
  (forall c s,
      match_pool_name (String c s) = None ->
      P s (findall_pool_names s) -> P (String c s) (findall_pool_names s)) ->
  forall s, P s (findall_pool_names s).
Proof.
  intros Hnil Hmatch Hskip s.
  remember (String.length s) as n eqn:Hn.
  revert s Hn. induction n as [n IH] using lt_wf_ind. intros s Hn.
  rewrite findall_pool_names_step.
  destruct (match_pool_name s) as [[w rest] |] eqn:E.
  - apply Hmatch; [exact E |].
    apply match_pool_name_inv in E. destruct E as (L & _).
    apply (IH (String.length rest)); [lia | reflexivity].
  - destruct s as [| c s].
    + exact Hnil.
    + apply Hskip; [exact E |].
      apply (IH (String.length s)); [simpl in Hn; lia | reflexivity].
Qed.

Lemma str_contains_unfold (s t : string) :
  str_contains s t
  = String.prefix t s
    || match s with
       | EmptyString => false
       | String _ s' => str_contains s' t
       end.
Proof. destruct s; reflexivity. Qed.

Lemma quote_not_space_nor_word (q : ascii) :
  is_quote_char q = true -> is_space_char q = false /\ is_word_char q = false.
Proof.
  destruct q as [[] [] [] [] [] [] [] []]; vm_compute; intros H;
    try discriminate H; split; reflexivity.
Qed.

Lemma skip_spaces_run (ws : string) (c : ascii) (r : string) :
  str_forallb is_space_char ws = true -> is_space_char c = false ->
  skip_spaces (ws +:+ String c r) = String c r.
Proof.
  intros Hws Hc. induction ws as [| a ws IH].
  - change ("" +:+ String c r) with (String c r). simpl. rewrite Hc.
    reflexivity.
  - change (String a ws +:+ String c r) with (String a (ws +:+ String c r)).
    simpl in *. apply andb_true_iff in Hws. destruct Hws as [Ha Hws].
    rewrite Ha. apply IH, Hws.
Qed.

Lemma take_word_run (w : string) (c : ascii) (r : string) :
  str_forallb is_word_char w = true -> is_word_char c = false ->
  take_word (w +:+ String c r) = (w, String c r).
Proof.
  intros Hw Hc. induction w as [| a w IH].
  - change ("" +:+ String c r) with (String c r). simpl. rewrite Hc.
    reflexivity.
  - change (String a w +:+ String c r) with (String a (w +:+ String c r)).
    simpl in *. apply andb_true_iff in Hw. destruct Hw as [Ha Hw].
    rewrite Ha, (IH Hw). reflexivity.
Qed.

(** X5: The parser's pattern matches at the start of a text of the shape
    name, whitespace, =, whitespace, quote, word, quote: it yields the
    word, whatever the two runs of whitespace are and whether or not the
    two quotes are the same, and goes on behind the closing quote. *)
Theorem pattern_detects (ws1 ws2 w rest : string) (q q' : ascii) :
  str_forallb is_space_char ws1 = true ->
  str_forallb is_space_char ws2 = true ->
  is_quote_char q = true -> is_quote_char q' = true ->
  w <> "" -> str_forallb is_word_char w = true ->
  findall_pool_names
    ("name" +:+ ws1 +:+ "=" +:+ ws2 +:+ String q (w +:+ String q' rest))
  = w :: findall_pool_names rest.
Proof.
  intros H1 H2 Hq Hq' Hw Hword.
  rewrite findall_pool_names_step.
  assert (match_pool_name
            ("name" +:+ ws1 +:+ "=" +:+ ws2 +:+ String q (w +:+ String q' rest))
          = Some (w, rest)) as ->; [| reflexivity].
  unfold match_pool_name.
  rewrite (proj2 (strip_literal_spec "name" _ _) eq_refl).
  change ("=" +:+ ws2 +:+ String q (w +:+ String q' rest))
    with (String "=" (ws2 +:+ String q (w +:+ String q' rest))).
  rewrite (skip_spaces_run ws1 "=" _ H1 eq_refl).
  change (Ascii.eqb "=" "=") with true. cbv iota.
  destruct (quote_not_space_nor_word q Hq) as [Hs _].
  destruct (quote_not_space_nor_word q' Hq') as [_ Hn].
  rewrite (skip_spaces_run ws2 q _ H2 Hs), Hq.
  rewrite (take_word_run w q' rest Hword Hn).
  destruct w as [| c0 w0]; [congruence |]. rewrite Hq'. reflexivity.
Qed.

(** A pool named in a tabulated assignment with mismatched quotes,
    followed by a second one. *)
Lemma pattern_detects_witness :
  findall_pool_names
    ("name" +:+ "  " +:+ "=" +:+ " "
     +:+ String (ascii_of_nat 34) ("p_1" +:+ String "'" " name='q'"))
  = ["p_1"; "q"].
Proof.
  rewrite (pattern_detects "  " " " "p_1" " name='q'" (ascii_of_nat 34) "'");
    try reflexivity.
  discriminate.
Defined.

(** X6: Every name the pattern finds is a non-empty run of word characters,
    and each find uses at least eight characters of the text. *)
Theorem detected_names_are_words (code : string) :
  List.Forall (fun w => w <> "" /\ str_forallb is_word_char w = true)
              (findall_pool_names code)
  /\ (8 * length (findall_pool_names code) <= String.length code)%nat.
Proof.
  apply (findall_pool_names_ind
           (fun s l =>
              List.Forall (fun w => w <> "" /\ str_forallb is_word_char w = true) l
              /\ (8 * length l <= String.length s)%nat)).
  - split; [constructor | simpl; lia].
  - intros s w rest E [IH1 IH2].
    apply match_pool_name_inv in E. destruct E as (L & Hne & Hw & _).
    split; [constructor; [split; assumption | exact IH1] |].
    destruct w as [| c0 w0]; [congruence |]. simpl in *. lia.
  - intros c s _ [IH1 IH2]. split; [exact IH1 | simpl; lia].
Qed.

(** X7: A text in which "name" does not occur yields no pool name. *)
Theorem no_name_no_detection (code : string) :
  str_contains code "name" = false -> findall_pool_names code = [].
Proof.
  apply (findall_pool_names_ind
           (fun s l => str_contains s "name" = false -> l = [])).
  - reflexivity.
  - intros s w rest E _ H. apply match_pool_name_inv in E.
    destruct E as (_ & _ & _ & Hp).
    rewrite str_contains_unfold, Hp in H. discriminate.
  - intros c s _ IH H. rewrite str_contains_unfold in H.
    apply orb_false_iff in H. apply IH, H.
Qed.

Lemma no_name_no_detection_witness :
  findall_pool_names "pool = 'high-mem'" = [].
Proof. apply no_name_no_detection. reflexivity. Defined.

End Pattern.


(** ** Policy loading *)

Section LoadingFacts.
Import PolicyEngine Loading.
Variable fs : FileSystem.

Lemma print_detected_run (pool_names : list string) (e : PolicyEngine.t) :
  print_detected pool_names e
  = (tt, e, map (fun n => "[Policy] Detected pool: " +:+ n) pool_names).
Proof.
  induction pool_names as [| n l IH]; [reflexivity |].
  simpl. unfold bind, print. rewrite IH. reflexivity.
Qed.

Lemma parse_policy_simple_run (code name : string) (e : PolicyEngine.t) :
  _parse_policy_simple code name e
  = (tt,
     set_policies (Dict.setitem name (Policy_init name) (policies e)) e,
     ["[Policy] Parsing: " +:+ name;
      "[Policy] This is a placeholder for actual Starlark execution"]
     ++ map (fun n => "[Policy] Detected pool: " +:+ n)
            (findall_pool_names code)).
Proof.
  unfold _parse_policy_simple, bind, print, modify.
  rewrite print_detected_run. reflexivity.
Qed.

Lemma load_policy_run (policy_path : string) (e : PolicyEngine.t) :
  load_policy fs policy_path e
  = match resolve fs (policy_dir e) policy_path with
    | None => (false, e, ["[Policy] Policy not found: " +:+ policy_path])
    | Some path =>
        match fs_read fs path with
        | ReadOk code =>
            (true, final (_parse_policy_simple code (fs_stem fs path) e),
             ("[Policy] Loading policy from: " +:+ path)
             :: stdout (_parse_policy_simple code (fs_stem fs path) e))
        | ReadError m =>
            (false, e,
             ["[Policy] Loading policy from: " +:+ path;
              "[Policy] Error loading policy: " +:+ m])
        end
    end.
Proof.
  assert (forall path,
             load_policy_from fs path e
             = match fs_read fs path with
               | ReadOk code =>
                   (true, final (_parse_policy_simple code (fs_stem fs path) e),
                    ("[Policy] Loading policy from: " +:+ path)
                    :: stdout (_parse_policy_simple code (fs_stem fs path) e))
               | ReadError m =>
                   (false, e,
                    ["[Policy] Loading policy from: " +:+ path;
                     "[Policy] Error loading policy: " +:+ m])
               end) as Hfrom.
  { intros path. unfold load_policy_from, bind, print.
    destruct (fs_read fs path) as [code | m]; [| reflexivity].
    rewrite parse_policy_simple_run. unfold ret, final, stdout. simpl.
    rewrite app_nil_r. reflexivity. }
  unfold load_policy, resolve.
  destruct (fs_exists fs (fs_Path fs policy_path)); simpl; [apply Hfrom |].
  unfold bind, gets. simpl.
  destruct (fs_exists fs (fs_joinpath fs (policy_dir e) policy_path)); simpl.
  - rewrite Hfrom.
    destruct (fs_read fs (fs_joinpath fs (policy_dir e) policy_path));
      reflexivity.
  - reflexivity.
Qed.

(** Loading one file writes [policies] only. *)
Lemma load_policy_frame (policy_path : string) (e : PolicyEngine.t) :
  gpu_ops (final (load_policy fs policy_path e)) = gpu_ops e
  /\ policy_dir (final (load_policy fs policy_path e)) = policy_dir e.
Proof.
  rewrite load_policy_run.
  destruct (resolve fs (policy_dir e) policy_path) as [path |];
    [| split; reflexivity].
  destruct (fs_read fs path) as [code | m]; [| split; reflexivity].
  rewrite parse_policy_simple_run. split; reflexivity.
Qed.

Lemma load_policy_result (policy_path : string) (e : PolicyEngine.t) :
  result (load_policy fs policy_path e)
  = can_load fs (policy_dir e) policy_path.
Proof.
  rewrite load_policy_run. unfold can_load, loadable.
  destruct (resolve fs (policy_dir e) policy_path) as [path |];
    [| reflexivity].
  destruct (fs_read fs path) as [code | m]; reflexivity.
Qed.

Lemma load_policy_policies (policy_path : string) (e : PolicyEngine.t) :
  policies (final (load_policy fs policy_path e))
  = match loadable fs (policy_dir e) policy_path with
    | Some (path, _) =>
        Dict.setitem (fs_stem fs path) (Policy_init (fs_stem fs path))
                     (policies e)
    | None => policies e
    end.
Proof.
  rewrite load_policy_run. unfold loadable.
  destruct (resolve fs (policy_dir e) policy_path) as [path |];
    [| reflexivity].
  destruct (fs_read fs path) as [code | m]; [| reflexivity].
  rewrite parse_policy_simple_run. reflexivity.
Qed.

(** The loop of [load_all_policies]: what it counts, and what it leaves
    alone. *)
Lemma load_all_policies_loop_run (files : list string) :
  forall (count : nat) (e : PolicyEngine.t),
    result (load_all_policies_loop fs files count e)
    = (count
       + length (List.filter (can_load fs (policy_dir e)) files))%nat
    /\ gpu_ops (final (load_all_policies_loop fs files count e)) = gpu_ops e
    /\ policy_dir (final (load_all_policies_loop fs files count e))
       = policy_dir e
    /\ (forall n : string,
          Dict.get n (policies (final (load_all_policies_loop fs files count e)))
          = if list_contains (loaded_stems fs (policy_dir e) files) n
            then Some (Policy_init n)
            else Dict.get n (policies e)).
Proof.
  induction files as [| f files IH]; intros count e.
  - simpl. unfold result, final, ret. simpl.
    repeat split; try reflexivity. lia.
  - cbn [load_all_policies_loop].
    pose proof (load_policy_result f e) as Hr.
    pose proof (load_policy_frame f e) as [Hg Hd].
    pose proof (load_policy_policies f e) as Hp.
    unfold bind. unfold result, final in *.
    destruct (load_policy fs f e) as [[ok e1] o1]. simpl in *.
    specialize (IH (if ok then S count else count) e1).
    destruct (load_all_policies_loop fs files (if ok then S count else count) e1)
      as [[c e2] o2]. simpl in *.
    destruct IH as (IH1 & IH2 & IH3 & IH4).
    rewrite Hd in *. rewrite <- Hr.
    split; [| split; [congruence | split; [congruence |]]].
    + rewrite IH1. destruct ok; simpl; lia.
    + intros n. rewrite IH4, Hp. unfold loaded_stems. simpl.
      destruct (loadable fs (policy_dir e) f) as [[path code] |]; simpl.
      * unfold list_contains at 2. simpl.
        fold (list_contains
                (omap (fun f0 => match loadable fs (policy_dir e) f0 with
                                 | Some (path0, _) => Some (fs_stem fs path0)
                                 | None => None
                                 end) files) n).
        destruct (list_contains _ n); [rewrite orb_true_r; reflexivity |].
        rewrite orb_false_r.
        destruct (String.eqb_spec n (fs_stem fs path)) as [-> | Hne].
        -- apply get_setitem_eq.
        -- apply get_setitem_ne. congruence.
      * reflexivity.
Qed.

(** X4: The placeholder parser stores [Policy(name)] with version 1.0, no
    pools and no schedules under [name], whatever the policy text is and
    whatever was stored under that name; it leaves the registry and the
    policy directory alone; and it prints two header lines followed by one
    line for each pool name the pattern finds. *)
Theorem parse_policy_simple_effect (code name : string) (e : PolicyEngine.t) :
  let e' := final (_parse_policy_simple code name e) in
  Dict.get name (policies e') = Some (Policy.mk name "1.0" [] [])
  /\ (forall n : string,
        n <> name -> Dict.get n (policies e') = Dict.get n (policies e))
  /\ gpu_ops e' = gpu_ops e
  /\ policy_dir e' = policy_dir e
  /\ stdout (_parse_policy_simple code name e)
     = ["[Policy] Parsing: " +:+ name;
        "[Policy] This is a placeholder for actual Starlark execution"]
       ++ map (fun n => "[Policy] Detected pool: " +:+ n)
              (findall_pool_names code).
Proof.
  intros e'. unfold e'. rewrite parse_policy_simple_run.
  unfold final, stdout. simpl.
  split; [apply get_setitem_eq |].
  split; [intros n Hn; apply get_setitem_ne; congruence |].
  repeat split.
Qed.

(** X8: [load_policy] answers true exactly when the path as given, or else
    the path under the policy directory, exists and can be read; a load
    that answers false leaves the engine as it was, printing one line
    when no file is found and two when reading raises. *)
Theorem load_policy_verdict (policy_path : string) (e : PolicyEngine.t) :
  (result (load_policy fs policy_path e) = true <->
   exists path code : string,
     resolve fs (policy_dir e) policy_path = Some path
     /\ fs_read fs path = ReadOk code)
  /\ (result (load_policy fs policy_path e) = false ->
      final (load_policy fs policy_path e) = e)
  /\ (resolve fs (policy_dir e) policy_path = None ->
      stdout (load_policy fs policy_path e)
      = ["[Policy] Policy not found: " +:+ policy_path])
  /\ (forall path m : string,
        resolve fs (policy_dir e) policy_path = Some path ->
        fs_read fs path = ReadError m ->
        stdout (load_policy fs policy_path e)
        = ["[Policy] Loading policy from: " +:+ path;
           "[Policy] Error loading policy: " +:+ m]).
Proof.
  rewrite load_policy_run.
  destruct (resolve fs (policy_dir e) policy_path) as [path |].
  - destruct (fs_read fs path) as [code | m] eqn:E; unfold result, final, stdout;
      simpl.
    + split; [split; [intros _; exists path, code; auto | reflexivity] |].
      split; [discriminate |]. split; [discriminate |].
      intros path' m [= <-] H. congruence.
    + split; [split; [discriminate |] |].
      { intros (path' & code & [= <-] & H). congruence. }
      split; [reflexivity |]. split; [discriminate |].
      intros path' m' [= <-] H. congruence.
  - unfold result, final, stdout. simpl.
    split; [split; [discriminate | intros (path & code & H & _); discriminate] |].
    split; [reflexivity |]. split; [reflexivity |].
    intros path m H. discriminate.
Qed.

(** X9: A successful load is the parse of the text read, under the stem of
    the path it was read from, behind one line that names that path. *)
Theorem load_policy_success (policy_path path code : string)
    (e : PolicyEngine.t) :
  loadable fs (policy_dir e) policy_path = Some (path, code) ->
  result (load_policy fs policy_path e) = true
  /\ final (load_policy fs policy_path e)
     = final (_parse_policy_simple code (fs_stem fs path) e)
  /\ Dict.get (fs_stem fs path) (policies (final (load_policy fs policy_path e)))
     = Some (Policy.mk (fs_stem fs path) "1.0" [] [])
  /\ stdout (load_policy fs policy_path e)
     = ("[Policy] Loading policy from: " +:+ path)
       :: stdout (_parse_policy_simple code (fs_stem fs path) e).
Proof.
  unfold loadable. rewrite load_policy_run.
  destruct (resolve fs (policy_dir e) policy_path) as [path' |];
    [| discriminate].
  destruct (fs_read fs path') as [code' | m]; [| discriminate].
  intros [= -> ->]. unfold result, final, stdout. simpl.
  rewrite parse_policy_simple_run. simpl.
  repeat split. apply get_setitem_eq.
Qed.

Lemma load_all_policies_run (e : PolicyEngine.t) :
  let dir := fs_Path fs (policy_dir e) in
  load_all_policies fs e
  = if fs_exists fs dir then
      (result (load_all_policies_loop fs (fs_glob_gsky fs dir) 0 e),
       final (load_all_policies_loop fs (fs_glob_gsky fs dir) 0 e),
       stdout (load_all_policies_loop fs (fs_glob_gsky fs dir) 0 e)
       ++ ["[Policy] Loaded "
           +:+ NilEmpty.string_of_uint
                 (Nat.to_uint
                    (result (load_all_policies_loop fs (fs_glob_gsky fs dir) 0 e)))
           +:+ " policy file(s)"])
    else (0%nat, e, ["[Policy] Policy directory not found: " +:+ dir]).
Proof.
  intros dir. unfold load_all_policies, bind, gets. simpl. fold dir.
  destruct (fs_exists fs dir); simpl; [| reflexivity].
  unfold result, final, stdout.
  destruct (load_all_policies_loop fs (fs_glob_gsky fs dir) 0 e)
    as [[c e1] o1]. reflexivity.
Qed.

(** X10: [load_all_policies] returns the number of globbed files that load,
    never more than were globbed, and names that number in the last line
    it prints; when the policy directory does not exist it returns 0,
    prints one line and leaves the engine as it was. *)
Theorem load_all_policies_count (e : PolicyEngine.t) :
  let dir := fs_Path fs (policy_dir e) in
  let count := result (load_all_policies fs e) in
  count
  = (if fs_exists fs dir
     then length (List.filter (can_load fs (policy_dir e)) (fs_glob_gsky fs dir))
     else 0%nat)
  /\ (count <= length (fs_glob_gsky fs dir))%nat
  /\ (fs_exists fs dir = true ->
      last (stdout (load_all_policies fs e))
      = Some ("[Policy] Loaded " +:+ NilEmpty.string_of_uint (Nat.to_uint count)
              +:+ " policy file(s)"))
  /\ (fs_exists fs dir = false ->
      final (load_all_policies fs e) = e
      /\ stdout (load_all_policies fs e)
         = ["[Policy] Policy directory not found: " +:+ dir]).
Proof.
  intros dir count. unfold count. rewrite load_all_policies_run. fold dir.
  destruct (load_all_policies_loop_run (fs_glob_gsky fs dir) 0 e) as (Hc & _).
  destruct (fs_exists fs dir); unfold result, final, stdout in *; simpl.
  - split; [exact Hc |]. split.
    + rewrite Hc. simpl. apply List.filter_length_le.
    + split; [| discriminate]. intros _. apply last_snoc.
  - split; [reflexivity |]. split; [lia |].
    split; [discriminate |]. intros _. split; reflexivity.
Qed.

(** X11: After [load_all_policies], the policy stored under a name is the
    fresh [Policy(name)] when the name is the stem of a globbed file that
    loads, and otherwise what was stored before. *)
Theorem load_all_policies_lookup (e : PolicyEngine.t) (n : string) :
  let dir := fs_Path fs (policy_dir e) in
  Dict.get n (policies (final (load_all_policies fs e)))
  = if fs_exists fs dir
       && list_contains (loaded_stems fs (policy_dir e) (fs_glob_gsky fs dir)) n
    then Some (Policy.mk n "1.0" [] [])
    else Dict.get n (policies e).
Proof.
  intros dir. rewrite load_all_policies_run. fold dir.
  destruct (load_all_policies_loop_run (fs_glob_gsky fs dir) 0 e)
    as (_ & _ & _ & Hp).
  destruct (fs_exists fs dir); unfold final in *; simpl; [| reflexivity].
  apply Hp.
Qed.

(** X12: Loading never registers anything: [load_policy] and
    [load_all_policies] leave the registry as it was, so every verdict of
    [evaluate_allocation] and every ranking of [get_recommended_gpus] is
    what it was before; on an engine that was only constructed and then
    loaded, no device is allocatable and every ranking is empty. *)
Theorem loading_never_registers (e : PolicyEngine.t) (policy_path : string)
    (D : GPUInfo.t) (R : Requirements.t) (gpus : list GPUInfo.t) :
  gpu_ops (final (load_policy fs policy_path e)) = gpu_ops e
  /\ gpu_ops (final (load_all_policies fs e)) = gpu_ops e
  /\ result (evaluate_allocation D R (final (load_policy fs policy_path e)))
     = result (evaluate_allocation D R e)
  /\ result (evaluate_allocation D R (final (load_all_policies fs e)))
     = result (evaluate_allocation D R e)
  /\ result (get_recommended_gpus gpus R (final (load_policy fs policy_path e)))
     = result (get_recommended_gpus gpus R e)
  /\ result (get_recommended_gpus gpus R (final (load_all_policies fs e)))
     = result (get_recommended_gpus gpus R e)
  /\ (forall dir : option string,
        result (evaluate_allocation D R
                  (final (load_all_policies fs (PolicyEngine.__init__ dir))))
        = false
        /\ result (get_recommended_gpus gpus R
                     (final (load_all_policies fs (PolicyEngine.__init__ dir))))
           = []).
Proof.
  assert (forall e0 : PolicyEngine.t,
             gpu_ops (final (load_all_policies fs e0)) = gpu_ops e0) as Hall.
  { intros e0. rewrite load_all_policies_run.
    destruct (load_all_policies_loop_run
                (fs_glob_gsky fs (fs_Path fs (policy_dir e0))) 0 e0)
      as (_ & Hg & _).
    destruct (fs_exists fs (fs_Path fs (policy_dir e0))); unfold final in *;
      simpl; [exact Hg | reflexivity]. }
  assert (forall e1 e2 : PolicyEngine.t,
             gpu_ops e1 = gpu_ops e2 ->
             forall g, evaluate e1 R g = evaluate e2 R g) as Hev.
  { intros e1 e2 E g. unfold evaluate. rewrite !evaluate_allocation_run.
    unfold result, registered_pools. simpl. rewrite E. reflexivity. }
  assert (forall e1 e2 : PolicyEngine.t,
             gpu_ops e1 = gpu_ops e2 ->
             result (get_recommended_gpus gpus R e1)
             = result (get_recommended_gpus gpus R e2)) as Hrec.
  { intros e1 e2 E. rewrite !get_recommended_gpus_sort. unfold result. simpl.
    rewrite (filter_ext _ _ (Hev e1 e2 E)). reflexivity. }
  pose proof (proj1 (load_policy_frame policy_path e)) as Hone.
  split; [exact Hone |]. split; [apply Hall |].
  split; [apply (Hev _ _ Hone) |]. split; [apply (Hev _ _ (Hall e)) |].
  split; [apply (Hrec _ _ Hone) |]. split; [apply (Hrec _ _ (Hall e)) |].
  intros dir.
  assert (forall g, evaluate (final (load_all_policies fs (PolicyEngine.__init__ dir)))
                      R g = false) as Hf.
  { intros g. rewrite (Hev _ _ (Hall (PolicyEngine.__init__ dir))). reflexivity. }
  split; [apply Hf |].
  rewrite get_recommended_gpus_sort. unfold result. simpl.
  rewrite (filter_ext _ (fun _ => false) Hf).
  assert (forall l : list GPUInfo.t,
             List.filter (fun _ : GPUInfo.t => false) l = []) as Hnil
    by (intros l; induction l; [reflexivity | assumption]).
  rewrite Hnil. reflexivity.
Qed.

End LoadingFacts.

(** The policy directory of the example holds three policy files, two of
    which load; the third cannot be read, so nothing is stored for it. *)
Lemma load_policy_success_witness :
  result (Loading.load_policy example_fs "a.gsky" example_engine) = true
  /\ Dict.get "a"
       (PolicyEngine.policies
          (final (Loading.load_policy example_fs "a.gsky" example_engine)))
     = Some (Policy.mk "a" "1.0" [] []).
Proof.
  destruct (load_policy_success example_fs "a.gsky" "policies/a.gsky"
              "name = 'fast'" example_engine eq_refl) as (H1 & _ & H3 & _).
  split; [exact H1 | exact H3].
Defined.


(** ** Starlark factory functions *)

Section Factories.
Import PolicyEngine.

Lemma dict_display_get {V : Type} (k : string) (kwargs : Dict.t V) :
  forall leading : Dict.t V,
    List.NoDup (Dict.keys kwargs) ->
    Dict.get k (dict_display leading kwargs)
    = match Dict.get k kwargs with
      | Some v => Some v
      | None => Dict.get k leading
      end.
Proof.
  unfold dict_display.
  induction kwargs as [| [k0 v0] kwargs IH]; intros leading Hnd; simpl;
    [reflexivity |].
  apply List.NoDup_cons_iff in Hnd. destruct Hnd as [Hk0 Hnd].
  rewrite (IH _ Hnd).
  destruct (String.eqb_spec k0 k) as [-> | Hne].
  - rewrite (proj2 (get_None_keys k kwargs) Hk0). apply get_setitem_eq.
  - rewrite (get_setitem_ne _ _ _ _ Hne). reflexivity.
Qed.

Lemma dict_display_keys {V : Type} (kwargs : Dict.t V) :
  forall leading : Dict.t V,
    List.NoDup (Dict.keys kwargs) ->
    Dict.keys (dict_display leading kwargs)
    = Dict.keys leading
      ++ List.filter (fun k => negb (list_contains (Dict.keys leading) k))
                     (Dict.keys kwargs).
Proof.
  unfold dict_display.
  induction kwargs as [| [k0 v0] kwargs IH]; intros leading Hnd; simpl.
  - rewrite app_nil_r. reflexivity.
  - apply List.NoDup_cons_iff in Hnd. destruct Hnd as [Hk0 Hnd].
    rewrite (IH _ Hnd), keys_setitem.
    destruct (list_contains (Dict.keys leading) k0) eqn:E; simpl;
      [reflexivity |].
    rewrite <- app_assoc. simpl. f_equal. f_equal.
    apply filter_ext_in. intros k Hk. f_equal.
    unfold list_contains. rewrite existsb_app. simpl.
    rewrite orb_false_r.
    destruct (String.eqb_spec k k0) as [-> | _]; [contradiction |].
    apply orb_false_r.
Qed.

Lemma dict_display_displays {V : Type} (key0 : string) (v0 : V)
    (kwargs : Dict.t V) :
  List.NoDup (Dict.keys kwargs) ->
  displays key0 v0 kwargs (dict_display [(key0, v0)] kwargs).
Proof.
  intros Hnd. unfold displays.
  split; [| split].
  - rewrite (dict_display_get _ _ _ Hnd). simpl. rewrite String.eqb_refl.
    destruct (Dict.get key0 kwargs); reflexivity.
  - intros k Hk. rewrite (dict_display_get _ _ _ Hnd). simpl.
    destruct (String.eqb_spec key0 k) as [-> | _]; [contradiction |].
    destruct (Dict.get k kwargs); reflexivity.
  - rewrite (dict_display_keys _ _ Hnd). simpl. f_equal.
    apply filter_ext. intros k. unfold list_contains. simpl.
    rewrite orb_false_r. reflexivity.
Qed.

(** Two dicts with the same keys in the same order, none twice, and the
    same value under every key are the same dict. *)
Lemma dict_ext {V : Type} (d1 : Dict.t V) :
  forall d2 : Dict.t V,
    List.NoDup (Dict.keys d1) ->
    Dict.keys d1 = Dict.keys d2 ->
    (forall k : string, Dict.get k d1 = Dict.get k d2) ->
    d1 = d2.
Proof.
  induction d1 as [| [k1 v1] d1 IH]; intros [| [k2 v2] d2] Hnd Hk Hg;
    try discriminate; [reflexivity |].
  simpl in Hk. injection Hk as -> Hk.
  apply List.NoDup_cons_iff in Hnd. destruct Hnd as [Hk2 Hnd].
  pose proof (Hg k2) as H2. simpl in H2. rewrite String.eqb_refl in H2.
  injection H2 as ->. f_equal.
  apply IH; [exact Hnd | exact Hk |].
  intros k. specialize (Hg k). simpl in Hg.
  destruct (String.eqb_spec k2 k) as [E | _]; [subst k | exact Hg].
  rewrite (proj2 (get_None_keys k2 d1) Hk2).
  symmetry. apply get_None_keys. rewrite <- Hk. exact Hk2.
Qed.

(** When [kwargs] has the leading key, the leading value is lost. *)
Lemma displays_same {V : Type} (key0 : string) (v1 v2 : V)
    (kwargs r1 r2 : Dict.t V) :
  List.NoDup (Dict.keys kwargs) ->
  Dict.get key0 kwargs <> None ->
  displays key0 v1 kwargs r1 -> displays key0 v2 kwargs r2 -> r1 = r2.
Proof.
  intros Hnd Hin (G1 & O1 & K1) (G2 & O2 & K2).
  apply dict_ext.
  - rewrite K1. apply List.NoDup_cons_iff. split.
    + intros H. apply filter_In in H. destruct H as [_ H].
      rewrite String.eqb_refl in H. discriminate.
    + apply List.NoDup_filter, Hnd.
  - rewrite K1, K2. reflexivity.
  - intros k. destruct (String.eqb_spec k key0) as [-> | Hne].
    + rewrite G1, G2. destruct (Dict.get key0 kwargs); [reflexivity |].
      congruence.
    + rewrite (O1 k Hne), (O2 k Hne). reflexivity.
Qed.

(** X1: An optimisation record holds every keyword argument under its key and
    the key 'type' first; but the kind under 'type' is the factory's own
    ('clock', 'memory', 'power') only when no keyword argument is named
    'type': such an argument replaces it.  (The keys of [kwargs] are
    distinct, as the keys of a dict are.) *)
Theorem optimize_record_kind (kwargs : Dict.t PyAny) :
  List.NoDup (Dict.keys kwargs) ->
  displays "type" (PyStr "clock") kwargs (_create_optimize_clock kwargs)
  /\ displays "type" (PyStr "memory") kwargs (_create_optimize_memory kwargs)
  /\ displays "type" (PyStr "power") kwargs (_create_optimize_power kwargs)
  /\ (forall v : PyAny,
        Dict.get "type" kwargs = Some v ->
        Dict.get "type" (_create_optimize_clock kwargs) = Some v
        /\ _create_optimize_clock kwargs = _create_optimize_memory kwargs
        /\ _create_optimize_clock kwargs = _create_optimize_power kwargs).
Proof.
  intros Hnd.
  split; [apply dict_display_displays, Hnd |].
  split; [apply dict_display_displays, Hnd |].
  split; [apply dict_display_displays, Hnd |].
  intros v Hv.
  pose proof (dict_display_displays "type" (PyStr "clock") kwargs Hnd) as Hc.
  pose proof (dict_display_displays "type" (PyStr "memory") kwargs Hnd) as Hm.
  pose proof (dict_display_displays "type" (PyStr "power") kwargs Hnd) as Hp.
  fold (_create_optimize_clock kwargs) in Hc.
  fold (_create_optimize_memory kwargs) in Hm.
  fold (_create_optimize_power kwargs) in Hp.
  split; [rewrite (proj1 Hc), Hv; reflexivity |].
  split.
  - apply (displays_same "type" (PyStr "clock") (PyStr "memory") kwargs);
      try assumption. rewrite Hv. discriminate.
  - apply (displays_same "type" (PyStr "clock") (PyStr "power") kwargs);
      try assumption. rewrite Hv. discriminate.
Qed.

(** A record with kwargs ["level" := 3; "type" := "memory"] built by the
    clock factory says it is of kind "memory". *)
Lemma optimize_record_kind_witness :
  Dict.get "type"
    (_create_optimize_clock [("level", PyInt 3); ("type", PyStr "memory")])
  = Some (PyStr "memory").
Proof.
  assert (List.NoDup
            (Dict.keys [("level", PyInt 3); ("type", PyStr "memory")])) as Hnd.
  { repeat constructor; simpl; intros H;
      repeat (destruct H as [H | H]; try discriminate H); exact H. }
  destruct (optimize_record_kind _ Hnd) as (_ & _ & _ & H).
  exact (proj1 (H (PyStr "memory") eq_refl)).
Defined.

(** X2: A health-check record holds the check's name under 'name', first,
    and every keyword argument under its key, in order.  (The keys of
    [kwargs] are distinct and none is 'name': a keyword argument of that
    name is the parameter [name] itself.) *)
Theorem health_check_record (name : string) (kwargs : Dict.t PyAny) :
  List.NoDup (Dict.keys kwargs) ->
  ~ In "name" (Dict.keys kwargs) ->
  Dict.get "name" (_create_health_check name kwargs) = Some (PyStr name)
  /\ (forall k : string,
        k <> "name" ->
        Dict.get k (_create_health_check name kwargs) = Dict.get k kwargs)
  /\ Dict.keys (_create_health_check name kwargs) = "name" :: Dict.keys kwargs.
Proof.
  intros Hnd Hname.
  destruct (dict_display_displays "name" (PyStr name) kwargs Hnd)
    as (Hget & Hother & Hkeys).
  fold (_create_health_check name kwargs) in Hget, Hother, Hkeys.
  split; [| split; [exact Hother |]].
  - rewrite Hget, (proj2 (get_None_keys "name" kwargs) Hname). reflexivity.
  - rewrite Hkeys. f_equal.
    rewrite List.forallb_filter_id; [reflexivity |].
    apply forallb_forall. intros k Hk. apply negb_true_iff.
    destruct (String.eqb_spec k "name") as [-> | _]; [contradiction |].
    reflexivity.
Qed.

Lemma health_check_record_witness :
  Dict.get "name"
    (_create_health_check "thermal" [("threshold", PyInt 80)])
  = Some (PyStr "thermal")
  /\ Dict.keys (_create_health_check "thermal" [("threshold", PyInt 80)])
     = ["name"; "threshold"].
Proof.
  assert (List.NoDup (Dict.keys [("threshold", PyInt 80)])) as Hnd
    by (repeat constructor; intros []).
  assert (~ In "name" (Dict.keys [("threshold", PyInt 80)])) as Hname
    by (intros [H | []]; discriminate H).
  destruct (health_check_record "thermal" _ Hnd Hname) as (H1 & _ & H3).
  split; [exact H1 | exact H3].
Defined.

(** X3: A pool built by [gpu_pool(...)] admits a device exactly when: the
    device name contains the string given as [gpu_type] (one substring,
    not its characters), or one of the strings of the list given, or
    no [gpu_type] or an empty list was given; the memory is not below
    [min_memory_gb] (0.0 if omitted); the temperature is not above
    [max_temp_c] (100.0 if omitted); and the device is unassigned or
    assigned to the pool's name ('default' if omitted). *)
Theorem created_pool_accepts (D : GPUInfo.t) (name : option string)
    (gpu_type : option (string + list string))
    (min_memory_gb max_temp_c : option float) (power_policy : option string)
    (health_threshold : option float)
    (opt_strategies health_checks : option (list (Dict.t PyAny))) :
  _matches_pool D
    (_create_gpu_pool name gpu_type min_memory_gb max_temp_c power_policy
       health_threshold opt_strategies health_checks) = true
  <->
  match gpu_type with
  | Some (inl s) => occurs_in s (GPUInfo.name D)
  | Some (inr l) =>
      l <> [] -> exists t : string, In t l /\ occurs_in t (GPUInfo.name D)
  | None => True
  end
  /\ Float.ltb (GPUInfo.memory_gb D) (default Float.zero min_memory_gb) = false
  /\ Float.gtb (GPUInfo.temperature_c D) (default (Float.of_Z 100) max_temp_c)
     = false
  /\ (GPUInfo.pool D <> "" -> GPUInfo.pool D = default "default" name).
Proof.
  rewrite matches_pool_split, andb_true_iff, accepts_name_spec,
    accepts_rest_spec.
  unfold _create_gpu_pool. simpl.
  destruct gpu_type as [[s | l] |]; simpl.
  - split; intros (H & Hrest); (split; [| exact Hrest]).
    + destruct H as (t & [<- | []] & Ht); [discriminate | exact Ht].
    + intros _. exists s. split; [left; reflexivity | exact H].
  - tauto.
  - split; intros (H & Hrest); (split; [| exact Hrest]); [exact I |].
    intros Hne. destruct Hne. reflexivity.
Qed.

End Factories.

(** ** Further properties of evaluation, ranking and the registry *)

Section FloatOrderMore.
Import Float FloatFacts.

Lemma leb_trans (x y z : float) :
  leb x y = true -> leb y z = true -> leb x z = true.
Proof.
  intros Hxy Hyz.
  destruct (leb_true_not_nan _ _ Hxy) as [Hx Hy].
  destruct (leb_true_not_nan _ _ Hyz) as [_ Hz].
  apply leb_lt3 in Hxy, Hyz; try assumption.
  apply leb_lt3; try assumption.
  destruct (rank x) as [[x1 x2] x3], (rank y) as [[y1 y2] y3],
    (rank z) as [[z1 z2] z3].
  unfold lt3 in *. simpl in *. lia.
Qed.

Lemma leb_ltb_trans (x y z : float) :
  leb x y = true -> ltb y z = true -> ltb x z = true.
Proof.
  intros Hxy Hyz.
  destruct (leb_true_not_nan _ _ Hxy) as [Hx Hy].
  destruct (ltb_true_not_nan _ _ Hyz) as [_ Hz].
  apply leb_lt3 in Hxy; try assumption.
  apply ltb_lt3 in Hyz; try assumption.
  apply ltb_lt3; try assumption.
  destruct (rank x) as [[x1 x2] x3], (rank y) as [[y1 y2] y3],
    (rank z) as [[z1 z2] z3].
  unfold lt3 in *. simpl in *. lia.
Qed.

Lemma ltb_leb_trans (x y z : float) :
  ltb x y = true -> leb y z = true -> ltb x z = true.
Proof.
  intros Hxy Hyz.
  destruct (ltb_true_not_nan _ _ Hxy) as [Hx Hy].
  destruct (leb_true_not_nan _ _ Hyz) as [_ Hz].
  apply ltb_lt3 in Hxy; try assumption.
  apply leb_lt3 in Hyz; try assumption.
  apply ltb_lt3; try assumption.
  destruct (rank x) as [[x1 x2] x3], (rank y) as [[y1 y2] y3],
    (rank z) as [[z1 z2] z3].
  unfold lt3 in *. simpl in *. lia.
Qed.

End FloatOrderMore.

Section Ranking.
Import PolicyEngine.

(** X13: The score never falls when a device comes online, has more memory or
    is cooler, the other two of the three readings being the same: an
    online device scores strictly more than its offline twin, more memory
    never scores less, and a higher temperature never scores more. *)
Theorem score_monotone (D D' : GPUInfo.t) :
  (GPUInfo.online D = false -> GPUInfo.online D' = true ->
   GPUInfo.memory_gb D' = GPUInfo.memory_gb D ->
   GPUInfo.temperature_c D' = GPUInfo.temperature_c D ->
   Float.ltb (_score_gpu D) (_score_gpu D') = true)
  /\ (GPUInfo.online D' = GPUInfo.online D ->
      GPUInfo.temperature_c D' = GPUInfo.temperature_c D ->
      Float.leb (GPUInfo.memory_gb D) (GPUInfo.memory_gb D') = true ->
      Float.leb (_score_gpu D) (_score_gpu D') = true)
  /\ (GPUInfo.online D' = GPUInfo.online D ->
      GPUInfo.memory_gb D' = GPUInfo.memory_gb D ->
      Float.leb (GPUInfo.temperature_c D) (GPUInfo.temperature_c D') = true ->
      Float.geb (_score_gpu D) (_score_gpu D') = true).
Proof.
  split; [| split].
  - intros Ho Ho' Hm Ht. unfold _score_gpu. rewrite Ho, Ho', Hm, Ht.
    destruct (Float.geb (GPUInfo.memory_gb D) f_16);
      destruct (Float.ltb (GPUInfo.temperature_c D) f_60);
      destruct (Float.gtb (GPUInfo.temperature_c D) f_80);
      vm_compute; reflexivity.
  - intros Ho Ht Hm. unfold _score_gpu. rewrite Ho, Ht.
    destruct (Float.geb (GPUInfo.memory_gb D) f_16) eqn:E.
    + assert (Float.geb (GPUInfo.memory_gb D') f_16 = true) as E'
        by exact (leb_trans f_16 _ _ E Hm).
      rewrite E'.
      destruct (GPUInfo.online D);
        destruct (Float.ltb (GPUInfo.temperature_c D) f_60);
        destruct (Float.gtb (GPUInfo.temperature_c D) f_80);
        vm_compute; reflexivity.
    + destruct (GPUInfo.online D);
        destruct (Float.geb (GPUInfo.memory_gb D') f_16);
        destruct (Float.ltb (GPUInfo.temperature_c D) f_60);
        destruct (Float.gtb (GPUInfo.temperature_c D) f_80);
        vm_compute; reflexivity.
  - intros Ho Hm Ht. unfold _score_gpu. rewrite Ho, Hm.
    destruct (Float.ltb (GPUInfo.temperature_c D') f_60) eqn:C'.
    + rewrite (leb_ltb_trans _ _ _ Ht C').
      destruct (GPUInfo.online D);
        destruct (Float.geb (GPUInfo.memory_gb D) f_16);
        vm_compute; reflexivity.
    + destruct (Float.gtb (GPUInfo.temperature_c D) f_80) eqn:H.
      * assert (Float.gtb (GPUInfo.temperature_c D') f_80 = true) as H'
          by exact (ltb_leb_trans f_80 _ _ H Ht).
        rewrite H'.
        rewrite (FloatFacts.ltb_false_trans
                   (GPUInfo.temperature_c D) f_80 f_60 eq_refl
                   (FloatFacts.ltb_asym f_80 _ H) eq_refl).
        destruct (GPUInfo.online D);
          destruct (Float.geb (GPUInfo.memory_gb D) f_16);
          vm_compute; reflexivity.
      * destruct (GPUInfo.online D);
          destruct (Float.geb (GPUInfo.memory_gb D) f_16);
          destruct (Float.ltb (GPUInfo.temperature_c D) f_60);
          destruct (Float.gtb (GPUInfo.temperature_c D') f_80);
          vm_compute; reflexivity.
Qed.

End Ranking.

Section SortedInput.
Context {A : Type}.
Variable key : A -> float.

Lemma sort_asc_sorted_id (l : list A) :
  StronglySorted (asc_by key) l -> sort_asc key l = l.
Proof.
  induction 1 as [| x l Hs IH Hx]; simpl; [reflexivity |].
  rewrite IH. destruct l as [| y l]; [reflexivity |]. simpl.
  apply List.Forall_inv in Hx. unfold asc_by in Hx. rewrite Hx. reflexivity.
Qed.

(** A list already in non-increasing order of keys is left as it is. *)
Lemma list_sort_reverse_sorted_id (l : list A) :
  StronglySorted (fun a b => Float.geb (key a) (key b) = true) l ->
  list_sort key true l = l.
Proof.
  intros Hs. unfold list_sort.
  rewrite sort_asc_sorted_id; [apply rev_involutive |].
  apply StronglySorted_rev in Hs.
  induction Hs as [| a l' Hs' IH Ha]; constructor; [exact IH |].
  apply List.Forall_forall. intros b Hb.
  pose proof (proj1 (List.Forall_forall _ _) Ha b Hb) as Hab.
  unfold asc_by. apply FloatFacts.leb_true_ltb_false. exact Hab.
Qed.

End SortedInput.

Section EvaluationMore.
Import PolicyEngine.

Lemma evaluate_allocation_loop_app (D : GPUInfo.t) (R : Requirements.t)
    (l1 l2 : list GPUPool.t) :
  evaluate_allocation_loop D R (l1 ++ l2)
  = evaluate_allocation_loop D R l1 || evaluate_allocation_loop D R l2.
Proof.
  induction l1 as [| p l1 IH]; simpl; [reflexivity |].
  destruct (_matches_pool D p && _meets_requirements D R); [reflexivity |].
  exact IH.
Qed.

Lemma evaluate_allocation_loop_perm (D : GPUInfo.t) (R : Requirements.t)
    (l1 l2 : list GPUPool.t) :
  Permutation l1 l2 ->
  evaluate_allocation_loop D R l1 = evaluate_allocation_loop D R l2.
Proof.
  intros Hp. apply eq_true_iff_eq. rewrite !evaluate_allocation_loop_spec.
  split; intros (p & Hin & H); exists p; (split; [| exact H]).
  - apply (Permutation_in _ Hp Hin).
  - apply (Permutation_in _ (Permutation_sym Hp) Hin).
Qed.

(** X14: The order in which the pools are listed does not matter: two engines
    whose registries list the same pools, in any order, give every device
    the same verdict and every device list the same ranking. *)
Theorem verdict_ignores_pool_order (e e' : PolicyEngine.t) :
  Permutation (result (on_gpu_ops GPUOpsModule.get_all_pools e))
              (result (on_gpu_ops GPUOpsModule.get_all_pools e')) ->
  forall (R : Requirements.t),
    (forall D : GPUInfo.t,
        result (evaluate_allocation D R e) = result (evaluate_allocation D R e'))
    /\ (forall gpus : list GPUInfo.t,
          result (get_recommended_gpus gpus R e)
          = result (get_recommended_gpus gpus R e')).
Proof.
  intros Hp R.
  assert (forall D, evaluate e R D = evaluate e' R D) as Hev.
  { intros D. unfold evaluate. rewrite !evaluate_allocation_run.
    apply (evaluate_allocation_loop_perm D R _ _ Hp). }
  split; [exact Hev |].
  intros gpus. rewrite !get_recommended_gpus_sort. unfold result. simpl.
  rewrite (filter_ext _ _ Hev). reflexivity.
Qed.

(** Pools "a" then "b", and "b" then "a". *)
Lemma verdict_ignores_pool_order_witness :
  let a := scenario_pool in
  let b := GPUPool.mk "b" ["A100"] Float.zero f_80 "adaptive"
             (Float.lit 9 10) [] [] in
  let e := PolicyEngine.mk "policies" []
             (registry_after [RegisterPool a; RegisterPool b]) in
  let e' := PolicyEngine.mk "policies" []
              (registry_after [RegisterPool b; RegisterPool a]) in
  result (get_recommended_gpus [scenario_device 1 24 35 true]
            scenario_requirements e)
  = result (get_recommended_gpus [scenario_device 1 24 35 true]
              scenario_requirements e').
Proof.
  intros a b e e'.
  apply (verdict_ignores_pool_order e e'). apply perm_swap.
Defined.

(** X15: Ranking a ranking changes nothing: [get_recommended_gpus] applied to
    its own result, with the same requirements and registry, returns that
    result. *)
Theorem recommendation_idempotent (e : PolicyEngine.t)
    (gpus : list GPUInfo.t) (R : Requirements.t) :
  result (get_recommended_gpus (result (get_recommended_gpus gpus R e)) R e)
  = result (get_recommended_gpus gpus R e).
Proof.
  rewrite !get_recommended_gpus_sort. unfold result. cbn [fst].
  set (out := list_sort _score_gpu true (List.filter (evaluate e R) gpus)).
  assert (List.filter (evaluate e R) out = out) as ->.
  { apply List.forallb_filter_id. apply forallb_forall. intros g Hg.
    apply (Permutation_in _ (list_sort_reverse_perm _score_gpu _)) in Hg.
    apply filter_In in Hg. exact (proj2 Hg). }
  apply list_sort_reverse_sorted_id.
  apply list_sort_reverse_sorted, score_not_nan.
Qed.

(** X16: The ranking is never longer than the device list, has as many
    devices as pass evaluation, and is empty when the registry lists no
    pool, whatever the devices and the requirements. *)
Theorem recommendation_size (e : PolicyEngine.t) (gpus : list GPUInfo.t)
    (R : Requirements.t) :
  length (result (get_recommended_gpus gpus R e))
  = length (List.filter (fun g => result (evaluate_allocation g R e)) gpus)
  /\ (length (result (get_recommended_gpus gpus R e)) <= length gpus)%nat
  /\ (result (on_gpu_ops GPUOpsModule.get_all_pools e) = [] ->
      result (get_recommended_gpus gpus R e) = []).
Proof.
  rewrite get_recommended_gpus_sort.
  change (fun g => result (evaluate_allocation g R e)) with (evaluate e R).
  change (result (list_sort _score_gpu true (List.filter (evaluate e R) gpus),
                  e, @nil string))
    with (list_sort _score_gpu true (List.filter (evaluate e R) gpus)).
  pose proof (Permutation_length
                (list_sort_reverse_perm _score_gpu
                   (List.filter (evaluate e R) gpus))) as Hlen.
  split; [exact Hlen |].
  split; [rewrite Hlen; apply List.filter_length_le |].
  intros Hnil.
  assert (List.filter (evaluate e R) gpus = []) as ->; [| reflexivity].
  assert (forall g, evaluate e R g = false) as Hf.
  { intros g. unfold evaluate. rewrite evaluate_allocation_run.
    change (registered_pools e)
      with (result (on_gpu_ops GPUOpsModule.get_all_pools e)).
    rewrite Hnil. reflexivity. }
  rewrite (filter_ext _ (fun _ => false) Hf).
  clear. induction gpus; [reflexivity | assumption].
Qed.

(** X17: Registering a pool under a name the registry does not have adds its
    verdict to the engine's: a device is allocatable afterwards exactly
    when it was before or the new pool matches it and the requirements
    are met; no device loses its allocation. *)
Theorem register_new_pool_verdict (e : PolicyEngine.t) (pool : GPUPool.t)
    (D : GPUInfo.t) (R : Requirements.t) :
  result (on_gpu_ops (GPUOpsModule.get_pool (GPUPool.name pool)) e) = None ->
  result (evaluate_allocation D R
            (final (on_gpu_ops (GPUOpsModule.register_pool pool) e)))
  = result (evaluate_allocation D R e)
    || (_matches_pool D pool && _meets_requirements D R).
Proof.
  destruct e as [dir ps [pools schedules]]. unfold result. simpl.
  intros Hnone. rewrite (setitem_absent _ pool _ Hnone).
  unfold Dict.values. rewrite map_app, evaluate_allocation_loop_app. simpl.
  destruct (_matches_pool D pool && _meets_requirements D R); reflexivity.
Qed.

Lemma register_new_pool_verdict_witness :
  result (evaluate_allocation (scenario_device 0 24 35 true)
            scenario_requirements scenario_engine) = true.
Proof.
  exact (register_new_pool_verdict (PolicyEngine.__init__ None) scenario_pool
           (scenario_device 0 24 35 true) scenario_requirements eq_refl).
Defined.

(** X18: A device assigned to a pool name is allocatable exactly when the pool
    registered under that name matches it and the requirements are met:
    in a registry built by registrations no other pool can admit it. *)
Theorem bound_device_verdict (cs : list call) (e : PolicyEngine.t)
    (D : GPUInfo.t) (R : Requirements.t) :
  gpu_ops e = registry_after cs ->
  GPUInfo.pool D <> "" ->
  (result (evaluate_allocation D R e) = true <->
   exists p : GPUPool.t,
     result (on_gpu_ops (GPUOpsModule.get_pool (GPUInfo.pool D)) e) = Some p
     /\ _matches_pool D p = true /\ _meets_requirements D R = true).
Proof.
  intros He Hbound. rewrite evaluate_allocation_run.
  unfold result, registered_pools. simpl.
  rewrite evaluate_allocation_loop_spec.
  destruct e as [dir ps g]. simpl in *. subst g.
  rewrite registry_after_pools.
  pose proof (dict_after_keyed GPUPool.name (pools_of cs)) as Hkeyed.
  pose proof (dict_after_NoDup GPUPool.name (pools_of cs)) as Hnd.
  split.
  - intros (p & Hin & Hm & Hr). exists p. split; [| split; assumption].
    apply in_map_iff in Hin. destruct Hin as ([k v] & E & Hin).
    simpl in E. subst v.
    assert (GPUInfo.pool D = GPUPool.name p) as ->.
    { rewrite matches_pool_split in Hm. apply andb_true_iff in Hm.
      destruct Hm as [_ Hm]. apply accepts_rest_spec in Hm.
      apply Hm, Hbound. }
    rewrite <- (Hkeyed k p Hin). apply In_get; assumption.
  - intros (p & Hget & Hm & Hr). exists p. split; [| split; assumption].
    apply get_In in Hget. apply (in_map snd) in Hget. exact Hget.
Qed.

Lemma bound_device_verdict_witness :
  let D := GPUInfo.mk 0 "X" "GPU-0" f_20 f_20 (Float.of_Z 10) true true
             "high-mem" [] in
  result (evaluate_allocation D scenario_requirements scenario_engine) = true.
Proof.
  intros D.
  apply (proj2 (bound_device_verdict [RegisterPool scenario_pool]
                  scenario_engine D scenario_requirements eq_refl
                  ltac:(discriminate))).
  exists scenario_pool. repeat split.
Defined.

End EvaluationMore.

Section RegistryMore.
Import GPUOpsModule.

Lemma setitem_setitem {V : Type} (k : string) (v1 v2 : V) (d : Dict.t V) :
  Dict.setitem k v2 (Dict.setitem k v1 d) = Dict.setitem k v2 d.
Proof.
  induction d as [| [k' v'] d IH]; simpl.
  - rewrite String.eqb_refl. reflexivity.
  - destruct (String.eqb k' k) eqn:E; simpl; rewrite E; [reflexivity |].
    rewrite IH. reflexivity.
Qed.

(** X19: A registration that is overwritten leaves no trace in the registry:
    registering two pools of one name in turn leaves the registry as
    registering the second alone does, and registering a pool twice as
    registering it once; the same holds for rulesets. *)
Theorem overwritten_registration (st : GPUOpsModule.t) :
  (forall p1 p2 : GPUPool.t,
      GPUPool.name p1 = GPUPool.name p2 ->
      final (register_pool p2 (final (register_pool p1 st)))
      = final (register_pool p2 st))
  /\ (forall p : GPUPool.t,
        final (register_pool p (final (register_pool p st)))
        = final (register_pool p st))
  /\ (forall s1 s2 : ScheduleRuleset.t,
        ScheduleRuleset.name s1 = ScheduleRuleset.name s2 ->
        final (register_schedule s2 (final (register_schedule s1 st)))
        = final (register_schedule s2 st)).
Proof.
  destruct st as [ps ss]. unfold final. simpl. unfold set_pools, set_schedules.
  simpl. split; [| split].
  - intros p1 p2 E. rewrite E, setitem_setitem. reflexivity.
  - intros p. rewrite setitem_setitem. reflexivity.
  - intros s1 s2 E. rewrite E, setitem_setitem. reflexivity.
Qed.

Lemma stdout_bind {S A B : Type} (m : M S A) (k : A -> M S B) (s : S) :
  stdout (bind m k s) = stdout (m s) ++ stdout (k (result (m s)) (final (m s))).
Proof.
  unfold stdout, result, final, bind. destruct (m s) as [[a s1] o1]. simpl.
  destruct (k a s1) as [[b s2] o2]. reflexivity.
Qed.

(** X20: Every registration prints exactly one line, naming what was
    registered, and the lines come in call order; a registration that is
    overwritten later has printed its line all the same. *)
Theorem registration_log (cs : list call) (st : GPUOpsModule.t) :
  stdout (run_calls cs st) = map line_of_call cs.
Proof.
  revert st. induction cs as [| c cs IH]; intros st; [reflexivity |].
  cbn [run_calls map]. rewrite stdout_bind, IH.
  destruct c as [p | s]; reflexivity.
Qed.

End RegistryMore.

(** ** The example file system *)

Section LoadingExamples.
Import Loading.

(** Loading the example directory: two of the three files load, and the
    pool name found in the first is printed, not registered. *)
Example load_all_policies_example :
  load_all_policies example_fs example_engine
  = (2%nat,
     PolicyEngine.mk "policies"
       [("a", Policy.mk "a" "1.0" [] []); ("b", Policy.mk "b" "1.0" [] [])]
       GPUOpsModule.__init__,
     ["[Policy] Loading policy from: policies/a.gsky";
      "[Policy] Parsing: a";
      "[Policy] This is a placeholder for actual Starlark execution";
      "[Policy] Detected pool: fast";
      "[Policy] Loading policy from: policies/bad.gsky";
      "[Policy] Error loading policy: Permission denied";
      "[Policy] Loading policy from: policies/b.gsky";
      "[Policy] Parsing: b";
      "[Policy] This is a placeholder for actual Starlark execution";
      "[Policy] Loaded 2 policy file(s)"]).
Proof. vm_compute. reflexivity. Qed.

End LoadingExamples.

Section TagsAsSets.
Import PolicyEngine.

(** X21: Tags are compared as sets: a request is met or not regardless of the
    order and repetition of the tags it requires and of the tags the
    device lists, the other readings and keys being the same. *)
Theorem tags_compared_as_sets (D D' : GPUInfo.t) (R R' : Requirements.t)
    (ts ts' : list string) :
  GPUInfo.memory_gb D' = GPUInfo.memory_gb D ->
  GPUInfo.temperature_c D' = GPUInfo.temperature_c D ->
  (forall x : string, In x (GPUInfo.tags D) <-> In x (GPUInfo.tags D')) ->
  Requirements.min_memory R' = Requirements.min_memory R ->
  Requirements.max_temp R' = Requirements.max_temp R ->
  Requirements.tags R = Some ts -> Requirements.tags R' = Some ts' ->
  (forall x : string, In x ts <-> In x ts') ->
  _meets_requirements D' R' = _meets_requirements D R.
Proof.
  intros Hm Ht Htags Hmin Hmax Hts Hts' Hsame.
  apply eq_true_iff_eq. rewrite !meets_requirements_checks.
  rewrite Hm, Ht, Hmin, Hmax, Hts, Hts'.
  split; intros (H1 & H2 & H3); (split; [exact H1 | split; [exact H2 |]]).
  - intros l [= <-] x Hx. apply Htags, (H3 ts' eq_refl), Hsame, Hx.
  - intros l [= <-] x Hx. apply Htags, (H3 ts eq_refl), Hsame, Hx.
Qed.

Lemma tags_compared_as_sets_witness :
  let D := GPUInfo.mk 0 "X" "GPU-0" f_20 f_20 (Float.of_Z 10) true false ""
             ["hpc"; "fp64"] in
  let D' := GPUInfo.mk 0 "X" "GPU-0" f_20 f_20 (Float.of_Z 10) true false ""
              ["fp64"; "hpc"; "fp64"] in
  _meets_requirements D' (Requirements.mk None None (Some ["hpc"; "hpc"]) ∅)
  = _meets_requirements D (Requirements.mk None None (Some ["hpc"]) ∅).
Proof.
  intros D D'.
  apply (tags_compared_as_sets D D' _ _ ["hpc"] ["hpc"; "hpc"]);
    try reflexivity; intros x; simpl; tauto.
Defined.

End TagsAsSets.
